(** * The Mathematica equation formatter of COOxidation

    A shallow embedding of [Program/Formatters/formatter_mathematica.py]
    (class [MathematicaFormatter]) and the properties of its state renderer
    [get_state], rate renderer [get_rate] and equation assembler
    [get_equation].

    Python is dynamically typed and the formatter validates the shape of its
    arguments at run time, so the arguments are values of one universal type
    [pyval] and every function that can raise returns a [result]. *)

From Stdlib Require Import ZArith List String Ascii Bool Lia Permutation.
From Stdlib Require Import DecimalString.
Import ListNotations.

Local Open Scope string_scope.
Local Open Scope Z_scope.

(** ** Python values, exceptions and the builtins the formatter calls *)

Module Py.

(** The values the formatter is given: [None], [int], [str], [tuple],
    [list] and [dict]; [bool] and [float] are left out.  A dictionary keeps
    its items in insertion order, so it is a list of key and value pairs,
    looked up by first match. *)
#[warnings="-register-all"]
Inductive pyval : Type :=
| PNone
| PInt (z : Z)
| PStr (s : string)
| PTuple (items : list pyval)
| PList (items : list pyval)
| PDict (items : list (pyval * pyval)).

(** Induction on values, with the hypothesis for every item of a tuple, a
    list or a dictionary. *)
Section PyvalInduction.
Variable P : pyval -> Prop.
Hypothesis P_none : P PNone.
Hypothesis P_int : forall z, P (PInt z).
Hypothesis P_str : forall s, P (PStr s).
Hypothesis P_tuple : forall items, Forall P items -> P (PTuple items).
Hypothesis P_list : forall items, Forall P items -> P (PList items).
Hypothesis P_dict :
  forall items, Forall (fun kv => P (fst kv) /\ P (snd kv)) items -> P (PDict items).

Fixpoint pyval_nested_ind (v : pyval) : P v :=
  match v with
  | PNone => P_none
  | PInt z => P_int z
  | PStr s => P_str s
  | PTuple items =>
      P_tuple items
        ((fix go (l : list pyval) : Forall P l :=
            match l with
            | [] => Forall_nil P
            | x :: l' => Forall_cons x (pyval_nested_ind x) (go l')
            end) items)
  | PList items =>
      P_list items
        ((fix go (l : list pyval) : Forall P l :=
            match l with
            | [] => Forall_nil P
            | x :: l' => Forall_cons x (pyval_nested_ind x) (go l')
            end) items)
  | PDict items =>
      P_dict items
        ((fix go (l : list (pyval * pyval)) : Forall (fun kv => P (fst kv) /\ P (snd kv)) l :=
            match l with
            | [] => Forall_nil _
            | (k, x) :: l' =>
                Forall_cons (k, x) (conj (pyval_nested_ind k) (pyval_nested_ind x)) (go l')
            end) items)
  end.
End PyvalInduction.

(** The exceptions that can leave the formatter. *)
Inductive pyerr : Type :=
| TypeError
| ValueError
| IndexError
| KeyError.

Inductive result (A : Type) : Type :=
| Ok (a : A)
| Raise (e : pyerr).

Arguments Ok {A} a.
Arguments Raise {A} e.

Definition bind {A B : Type} (r : result A) (k : A -> result B) : result B :=
  match r with
  | Ok a => k a
  | Raise e => Raise e
  end.

(** A comprehension [[f(x) for x in l]]: left to right, the first exception
    ends it. *)
Fixpoint mapM {A B : Type} (f : A -> result B) (l : list A) : result (list B) :=
  match l with
  | [] => Ok []
  | x :: xs =>
      bind (f x) (fun y => bind (mapM f xs) (fun ys => Ok (y :: ys)))
  end.

(** *** Text

    Python text is modelled by strings of ASCII characters; the character
    classes below are Python's, restricted to ASCII. *)

(** [str.isspace] of one character, which [str.strip()] removes. *)
Definition isspace (c : ascii) : bool :=
  let n := nat_of_ascii c in
  ((9 <=? n) && (n <=? 13) || (28 <=? n) && (n <=? 32))%nat.

(** [str.isnumeric] of one character. *)
Definition isnumeric (c : ascii) : bool :=
  let n := nat_of_ascii c in
  ((48 <=? n) && (n <=? 57))%nat.

Definition upper_char (c : ascii) : ascii :=
  let n := nat_of_ascii c in
  if ((97 <=? n) && (n <=? 122))%nat then ascii_of_nat (n - 32) else c.

(** [s.upper()] *)
Fixpoint upper (s : string) : string :=
  match s with
  | EmptyString => EmptyString
  | String c s' => String (upper_char c) (upper s')
  end.

(** [s.split(sep)] for a separator of one character. *)
Fixpoint split (sep : ascii) (s : string) : list string :=
  match s with
  | EmptyString => [EmptyString]
  | String c s' =>
      if Ascii.eqb c sep then EmptyString :: split sep s'
      else match split sep s' with
           | [] => [String c EmptyString]
           | w :: ws => String c w :: ws
           end
  end.

(** [sep.join(l)] *)
Fixpoint join (sep : string) (l : list string) : string :=
  match l with
  | [] => EmptyString
  | [x] => x
  | x :: xs => x ++ sep ++ join sep xs
  end.

Fixpoint lstrip (s : string) : string :=
  match s with
  | EmptyString => EmptyString
  | String c s' => if isspace c then lstrip s' else s
  end.

Fixpoint rstrip (s : string) : string :=
  match s with
  | EmptyString => EmptyString
  | String c s' =>
      match rstrip s' with
      | EmptyString => if isspace c then EmptyString else String c EmptyString
      | r => String c r
      end
  end.

(** [s.strip()] *)
Definition strip (s : string) : string := rstrip (lstrip s).

(** [s[0]], which raises [IndexError] on the empty string. *)
Definition str_head (s : string) : result ascii :=
  match s with
  | EmptyString => Raise IndexError
  | String c _ => Ok c
  end.

(** [s[j:]] for [0 <= j]. *)
Fixpoint str_drop (j : nat) (s : string) : string :=
  match j, s with
  | O, _ => s
  | S j', EmptyString => EmptyString
  | S j', String _ s' => str_drop j' s'
  end.

Definition str_len (s : string) : Z := Z.of_nat (String.length s).

(** [str(z)] of an [int]: decimal digits, with a minus sign below zero. *)
Definition str_of_int (z : Z) : string := NilZero.string_of_int (Z.to_int z).

Definition hex_digit (n : nat) : ascii :=
  if (n <? 10)%nat then ascii_of_nat (48 + n) else ascii_of_nat (87 + n).

Definition single_quote : ascii := ascii_of_nat 39.
Definition double_quote : ascii := ascii_of_nat 34.
Definition backslash : ascii := ascii_of_nat 92.

Definition char (c : ascii) : string := String c EmptyString.

(** How [repr] writes one character of a string between quotes [q]. *)
Definition repr_char (q : ascii) (c : ascii) : string :=
  let n := nat_of_ascii c in
  if Ascii.eqb c q || Ascii.eqb c backslash then String backslash (char c)
  else if (n =? 9)%nat then String backslash "t"
  else if (n =? 10)%nat then String backslash "n"
  else if (n =? 13)%nat then String backslash "r"
  else if ((n <? 32) || (n =? 127))%nat then
    String backslash (String "x" (String (hex_digit (n / 16)) (char (hex_digit (n mod 16)))))
  else char c.

Fixpoint str_contains (c : ascii) (s : string) : bool :=
  match s with
  | EmptyString => false
  | String c' s' => Ascii.eqb c' c || str_contains c s'
  end.

Fixpoint repr_chars (q : ascii) (s : string) : string :=
  match s with
  | EmptyString => EmptyString
  | String c s' => repr_char q c ++ repr_chars q s'
  end.

(** [repr(s)] of text: single quotes, unless the text has a single quote
    and no double quote. *)
Definition repr_str (s : string) : string :=
  let q := if str_contains single_quote s && negb (str_contains double_quote s)
           then double_quote else single_quote in
  String q (repr_chars q s ++ char q).

(** [repr(v)] *)
Fixpoint py_repr (v : pyval) : string :=
  match v with
  | PNone => "None"
  | PInt z => str_of_int z
  | PStr s => repr_str s
  | PTuple items =>
      match items with
      | [x] => "(" ++ py_repr x ++ ",)"
      | _ => "(" ++ join ", " (map py_repr items) ++ ")"
      end
  | PList items => "[" ++ join ", " (map py_repr items) ++ "]"
  | PDict items =>
      "{" ++ join ", " (map (fun kv => match kv with
                                       | (k, x) => py_repr k ++ ": " ++ py_repr x
                                       end) items) ++ "}"
  end.

(** [str(v)], which is also what [f"{v}"] inserts. *)
Definition py_str (v : pyval) : string :=
  match v with
  | PStr s => s
  | _ => py_repr v
  end.

(** *** Hashing and equality

    [list] and [dict] values cannot be hashed; a tuple can when its items
    can. *)
Fixpoint hashable (v : pyval) : bool :=
  match v with
  | PNone | PInt _ | PStr _ => true
  | PTuple items => forallb hashable items
  | PList _ | PDict _ => false
  end.

(** [a == b].  It is asked of dictionary keys and set elements only, which
    are hashable, and on those values equality is structural. *)
Fixpoint py_eqb (a b : pyval) : bool :=
  match a, b with
  | PNone, PNone => true
  | PInt x, PInt y => Z.eqb x y
  | PStr x, PStr y => String.eqb x y
  | PTuple xs, PTuple ys | PList xs, PList ys =>
      (fix go (xs ys : list pyval) : bool :=
         match xs, ys with
         | [], [] => true
         | x :: xs', y :: ys' => py_eqb x y && go xs' ys'
         | _, _ => false
         end) xs ys
  | PDict xs, PDict ys =>
      (fix go (xs ys : list (pyval * pyval)) : bool :=
         match xs, ys with
         | [], [] => true
         | (k, x) :: xs', (l, y) :: ys' => py_eqb k l && py_eqb x y && go xs' ys'
         | _, _ => false
         end) xs ys
  | _, _ => false
  end.

(** [x in l] *)
Definition mem (x : pyval) (l : list pyval) : bool := existsb (py_eqb x) l.

(** The distinct elements of [l], each at its first place. *)
Fixpoint distinct (l : list pyval) : list pyval :=
  match l with
  | [] => []
  | x :: xs => x :: filter (fun y => negb (py_eqb x y)) (distinct xs)
  end.

(** *** Sequences *)

Definition len {A : Type} (l : list A) : Z := Z.of_nat (List.length l).

(** [enumerate(l)] *)
Definition enumerate {A : Type} (l : list A) : list (Z * A) :=
  combine (map Z.of_nat (seq 0 (List.length l))) l.

(** A slice bound, as Python clamps it for a sequence of length [n]. *)
Definition clamp (n i : Z) : Z :=
  if i <? 0 then Z.max 0 (i + n) else Z.min i n.

(** [l[lo:hi]] *)
Definition slice {A : Type} (l : list A) (lo hi : Z) : list A :=
  let lo' := clamp (len l) lo in
  let hi' := clamp (len l) hi in
  firstn (Z.to_nat (hi' - lo')) (skipn (Z.to_nat lo') l).

(** [l[i]] for an integer [i]; a negative [i] counts from the end. *)
Definition seq_item {A : Type} (l : list A) (i : Z) : result A :=
  let j := if i <? 0 then i + len l else i in
  if (j <? 0) || (len l <=? j) then Raise IndexError
  else match nth_error l (Z.to_nat j) with
       | Some x => Ok x
       | None => Raise IndexError
       end.

Fixpoint chars (s : string) : list pyval :=
  match s with
  | EmptyString => []
  | String c s' => PStr (char c) :: chars s'
  end.

Fixpoint lookup (k : pyval) (items : list (pyval * pyval)) : option pyval :=
  match items with
  | [] => None
  | (k', x) :: rest => if py_eqb k k' then Some x else lookup k rest
  end.

(** [v[i]] *)
Definition getitem (v i : pyval) : result pyval :=
  match v with
  | PTuple items | PList items =>
      match i with
      | PInt n => seq_item items n
      | _ => Raise TypeError
      end
  | PStr s =>
      match i with
      | PInt n => seq_item (chars s) n
      | _ => Raise TypeError
      end
  | PDict items =>
      if hashable i then
        match lookup i items with
        | Some x => Ok x
        | None => Raise KeyError
        end
      else Raise TypeError
  | PNone | PInt _ => Raise TypeError
  end.

(** [len(v)] *)
Definition py_len (v : pyval) : result Z :=
  match v with
  | PTuple items | PList items => Ok (len items)
  | PStr s => Ok (str_len s)
  | PDict items => Ok (len items)
  | PNone | PInt _ => Raise TypeError
  end.

(** The items [for x in v] visits. *)
Definition iterate (v : pyval) : result (list pyval) :=
  match v with
  | PTuple items | PList items => Ok items
  | PStr s => Ok (chars s)
  | PDict items => Ok (map fst items)
  | PNone | PInt _ => Raise TypeError
  end.

(** [v > n] for an integer literal [n]: only an [int] is ordered against
    an [int]. *)
Definition gt_int (v : pyval) (n : Z) : result bool :=
  match v with
  | PInt z => Ok (n <? z)
  | _ => Raise TypeError
  end.

(** [set(l)]: the distinct elements, once each element has been hashed. *)
Definition set_of (l : list pyval) : result (list pyval) :=
  if forallb hashable l then Ok (distinct l) else Raise TypeError.

(** The elements of [a.intersection(b)], listed as they stand in [a]. *)
Definition intersection (a b : list pyval) : list pyval :=
  filter (fun x => mem x b) a.

End Py.

Import Py.

Notation "x <- r ;; k" := (bind r (fun x => k))
  (at level 61, r at next level, right associativity).

(** Python leaves open the order in which a set is iterated: it follows the
    hashes of the elements, and the hash of text changes from one run of the
    interpreter to the next.  What [list(s)] returns for a set [s] is
    therefore a parameter of the model: a [set_order] takes the elements of
    the set and gives them back in the order of the iteration.  The only
    thing known of it is [set_order_ok].  The order is taken to depend on
    the elements alone.  In CPython it also depends on how the two sets of
    an intersection were filled, which shows only when two pairs of windows
    share the same entries, as in a state that has an entry twice; what is
    proved below of the order inside a denominator factor is for states
    with no entry twice. *)
Definition set_order : Type := list pyval -> list pyval.

Definition set_order_ok (list_of_set : set_order) : Prop :=
  forall l, Permutation (list_of_set l) l.

(** ** [MathematicaFormatter.get_state] *)

(** The functions nested in [get_state]; what they capture from the
    enclosing call ([state], [order], [numerator_states]) is passed to them. *)
Module State.

(** [f"{entry0[0]}{entry0[1]}"] *)
Definition format_entry (entry0 : pyval) : result string :=
  label <- getitem entry0 (PInt 0) ;;
  index <- getitem entry0 (PInt 1) ;;
  Ok (py_str label ++ py_str index).

(** The inner loop of [get_denominator], over [enumerate(numerator_states)],
    for the [i]th state [state0_0]; [state_list0] is the list being filled. *)
Fixpoint get_denominator_inner (list_of_set : set_order) (i : Z) (state0_0 : list pyval)
    (rest : list (Z * list pyval)) (state_list0 : list (list pyval))
    : result (list (list pyval)) :=
  match rest with
  | [] => Ok state_list0
  | (j, state0_1) :: rest' =>
      if j <=? i then get_denominator_inner list_of_set i state0_0 rest' state_list0
      else
        set0 <- set_of state0_0 ;;
        set1 <- set_of state0_1 ;;
        let intersecting_states0 := list_of_set (intersection set0 set1) in
        if len intersecting_states0 >? 0
        then get_denominator_inner list_of_set i state0_0 rest'
               (state_list0 ++ [intersecting_states0])
        else get_denominator_inner list_of_set i state0_0 rest' state_list0
  end.

(** The outer loop of [get_denominator]. *)
Fixpoint get_denominator_outer (list_of_set : set_order)
    (numerator_states : list (list pyval)) (rest : list (Z * list pyval))
    (state_list0 : list (list pyval)) : result (list (list pyval)) :=
  match rest with
  | [] => Ok state_list0
  | (i, state0_0) :: rest' =>
      state_list0' <- get_denominator_inner list_of_set i state0_0
                        (enumerate numerator_states) state_list0 ;;
      get_denominator_outer list_of_set numerator_states rest' state_list0'
  end.

Definition get_denominator (list_of_set : set_order)
    (numerator_states : list (list pyval)) : result (list (list pyval)) :=
  get_denominator_outer list_of_set numerator_states (enumerate numerator_states) [].

(** The loop of [get_numerator] over the indices of [state], which [break]s
    once the window would pass the end. *)
Fixpoint get_numerator_loop (state : list pyval) (order : Z) (indices : list Z)
    : list (list pyval) :=
  match indices with
  | [] => []
  | i :: rest =>
      if i + order >? len state then []
      else slice state i (i + order) :: get_numerator_loop state order rest
  end.

Definition get_numerator (state : list pyval) (order : Z) : list (list pyval) :=
  get_numerator_loop state order (map fst (enumerate state)).

(** ["P"], the formatted entries one after the other, then ["[t]"]. *)
Definition get_state_string (state0 : list pyval) : result string :=
  entries0 <- mapM format_entry state0 ;;
  Ok ("P" ++ join EmptyString entries0 ++ "[t]").

(** The loop of [validate_state] over the entries of the state. *)
Fixpoint validate_substates (state : list pyval) : result unit :=
  match state with
  | [] => Ok tt
  | substate :: rest =>
      match substate with
      | PTuple items =>
          if negb (len items =? 2) then Raise TypeError
          else validate_substates rest
      | _ => Raise TypeError
      end
  end.

Definition validate_state (state : pyval) (order : Z) : result unit :=
  if negb (0 <=? order) then Raise ValueError
  else match state with
       | PTuple entries => validate_substates entries
       | _ => Raise TypeError
       end.

End State.

(** [get_state(state, order)], for an integer [order]. *)
Definition get_state (list_of_set : set_order) (state : pyval) (order : Z)
    : result string :=
  _ <- State.validate_state state order ;;
  match state with
  | PTuple entries =>
      if (order =? 0) || (order >=? len entries) then State.get_state_string entries
      else
        let numerator_states := State.get_numerator entries order in
        denominator_states <- State.get_denominator list_of_set numerator_states ;;
        numerator_strings <- mapM State.get_state_string numerator_states ;;
        let state_string := join " " numerator_strings in
        if len denominator_states >? 0 then
          denominator_strings <- mapM State.get_state_string denominator_states ;;
          Ok (state_string ++ "/(" ++ join " " denominator_strings ++ ")")
        else Ok state_string
  | _ => Raise TypeError
  end.

(** ** [MathematicaFormatter.get_rate] and [get_rate_value] *)

Definition get_rate (rate : pyval) : result string :=
  match rate with
  | PStr text => Ok (upper (join EmptyString (split "." text)))
  | _ => Raise TypeError
  end.

Definition get_rate_value (rate value : pyval) : result string :=
  rate_string <- get_rate rate ;;
  Ok (rate_string ++ " = " ++ py_str value).

(** ** [MathematicaFormatter.get_equation] *)

(** The functions nested in [get_equation]; [equation] and [order], which
    they capture, are passed to them. *)
Module Equation.

(** [f"+{string_key} (" + "+".join(create_states0) + "-" + "-".join(decay_states0) + ")"] *)
Definition format_create_decay (key0 : pyval) (create_states0 decay_states0 : list string)
    : result string :=
  string_key <- get_rate key0 ;;
  let create_string0 := join "+" create_states0 in
  let decay_string0 := "-" ++ join "-" decay_states0 in
  Ok ("+" ++ string_key ++ " (" ++ create_string0 ++ decay_string0 ++ ")").

(** The loop of [get_prefactor]: [j] counts the leading numeric characters
    and [tmp_string1] collects them. *)
Fixpoint get_prefactor_loop (rest : string) (j : nat) (tmp_string1 : string)
    : nat * string :=
  match rest with
  | EmptyString => (j, tmp_string1)
  | String character rest' =>
      if negb (isnumeric character) then (j, tmp_string1)
      else get_prefactor_loop rest' (S j) (tmp_string1 ++ char character)
  end.

Definition get_prefactor (state_string1 : string) : string * string :=
  let '(j, tmp_string1) := get_prefactor_loop state_string1 0 EmptyString in
  (tmp_string1,
   if (j <? String.length state_string1)%nat then str_drop j state_string1
   else state_string1).

Definition format_create_decay_single (key0 : pyval) (states0 : list string)
    (decay : bool) : result string :=
  string_key <- get_rate key0 ;;
  let create_decay_string0 := if decay then "-" else "+" in
  if len states0 =? 1 then
    state_string1 <- seq_item states0 0 ;;
    let '(prefactor0, create_decay_string0_0) := get_prefactor state_string1 in
    Ok (create_decay_string0 ++ prefactor0 ++ " " ++ string_key ++ " "
        ++ create_decay_string0_0)
  else
    Ok (create_decay_string0 ++ string_key ++ " (" ++ join "+" states0 ++ ")").

Definition format_equation_string (equation_string0 : string) : result string :=
  let equation_string0_0 := strip equation_string0 in
  c <- str_head equation_string0 ;;
  let first_character0 := if Ascii.eqb c "-" then "-" else EmptyString in
  c0 <- str_head equation_string0_0 ;;
  let delete_first0 := Ascii.eqb c0 "-" || Ascii.eqb c0 "+" in
  let equation_string0_0 :=
    if delete_first0 then str_drop 1 equation_string0_0 else equation_string0_0 in
  let equation_string0_0 := strip equation_string0_0 in
  let equation_string0_0 := join " + " (split "+" equation_string0_0) in
  let equation_string0_0 := join " - " (split "-" equation_string0_0) in
  Ok (first_character0 ++ equation_string0_0).

Definition format_state_multiplicity (list_of_set : set_order) (order : Z)
    (state0 : pyval) : result string :=
  n <- py_len state0 ;;
  if negb (n =? 2) then Raise ValueError
  else
    multiplicity <- getitem state0 (PInt 1) ;;
    more <- gt_int multiplicity 1 ;;
    let state0_0 := if more : bool then py_str multiplicity else EmptyString in
    state <- getitem state0 (PInt 0) ;;
    state_string <- get_state list_of_set state order ;;
    Ok (state0_0 ++ state_string).

(** The loop of [validate_state] over the entries of the state. *)
Fixpoint validate_substates (state0 : list pyval) : result unit :=
  match state0 with
  | [] => Ok tt
  | substate0 :: rest =>
      match substate0 with
      | PTuple items =>
          if negb (len items =? 2) then Raise TypeError
          else validate_substates rest
      | _ => Raise TypeError
      end
  end.

Definition validate_state (state0 : pyval) : result unit :=
  match state0 with
  | PTuple entries => validate_substates entries
  | _ => Raise TypeError
  end.

(** [set(keys0_1) == set(keys0_2)] *)
Definition same_keys (keys0_1 keys0_2 : list pyval) : bool :=
  forallb (fun k => mem k keys0_2) keys0_1
  && forallb (fun k => mem k keys0_1) keys0_2.

Definition validate_equation (equation : pyval) : result unit :=
  match equation with
  | PTuple items =>
      if negb (len items =? 3) then Raise TypeError
      else
        state <- getitem equation (PInt 0) ;;
        _ <- validate_state state ;;
        creation <- getitem equation (PInt 1) ;;
        decay <- getitem equation (PInt 2) ;;
        match creation, decay with
        | PDict items1, PDict items2 =>
            if negb (same_keys (map fst items1) (map fst items2))
            then Raise ValueError
            else Ok tt
        | _, _ => Raise TypeError
        end
  | _ => Raise TypeError
  end.

(** The body of the loop [for key in keys]: what the rate [key] adds to
    [equation_string]. *)
Definition add_key (list_of_set : set_order) (order : Z) (creation decay : pyval)
    (equation_string : string) (key : pyval) : result string :=
  created <- getitem creation key ;;
  created <- iterate created ;;
  create_states <- mapM (format_state_multiplicity list_of_set order) created ;;
  decayed <- getitem decay key ;;
  decayed <- iterate decayed ;;
  decay_states <- mapM (format_state_multiplicity list_of_set order) decayed ;;
  if (len decay_states >? 0) && (len create_states =? 0) then
    decay_string <- format_create_decay_single key decay_states true ;;
    Ok (equation_string ++ decay_string)
  else if (len decay_states =? 0) && (len create_states >? 0) then
    create_string <- format_create_decay_single key create_states false ;;
    Ok (equation_string ++ create_string)
  else if (len decay_states >? 0) && (len create_states >? 0) then
    create_decay_string <- format_create_decay key create_states decay_states ;;
    Ok (equation_string ++ create_decay_string)
  else Ok equation_string.

(** The loop [for key in keys]. *)
Fixpoint add_keys (list_of_set : set_order) (order : Z) (creation decay : pyval)
    (equation_string : string) (keys : list pyval) : result string :=
  match keys with
  | [] => Ok equation_string
  | key :: rest =>
      equation_string' <- add_key list_of_set order creation decay equation_string key ;;
      add_keys list_of_set order creation decay equation_string' rest
  end.

End Equation.

(** [get_equation(equation, order)], for an integer [order]. *)
Definition get_equation (list_of_set : set_order) (equation : pyval) (order : Z)
    : result string :=
  _ <- Equation.validate_equation equation ;;
  creation <- getitem equation (PInt 1) ;;
  decay <- getitem equation (PInt 2) ;;
  keys <- iterate creation ;;
  state <- getitem equation (PInt 0) ;;
  state_string <- get_state list_of_set state 0 ;;
  let diff_state := "D[" ++ state_string ++ ", t] == " in
  equation_string <- Equation.add_keys list_of_set order creation decay EmptyString keys ;;
  equation_string <- Equation.format_equation_string equation_string ;;
  Ok (diff_state ++ equation_string).

(** ** The records of the specification's examples *)

Definition entry (label : string) (index : Z) : pyval := PTuple [PStr label; PInt index].

(** [(("a", 0), ("b", 1))] *)
Definition state_ab : pyval := PTuple [entry "a" 0; entry "b" 1].

(** [(state_ab, {"k1": [((state_ab,), 2)]}, {"k1": []})]: the creation entry
    as the example writes it, its state being the 1-tuple that holds
    [state_ab]. *)
Definition equation_create_written : pyval :=
  PTuple [state_ab;
          PDict [(PStr "k1", PList [PTuple [PTuple [state_ab]; PInt 2]])];
          PDict [(PStr "k1", PList [])]].

(** [(state_ab, {"k1": [(state_ab, 2)]}, {"k1": []})] *)
Definition equation_create : pyval :=
  PTuple [state_ab;
          PDict [(PStr "k1", PList [PTuple [state_ab; PInt 2]])];
          PDict [(PStr "k1", PList [])]].

(** [(state_ab, {"k1": []}, {"k1": [(state_ab, 1)]})] *)
Definition equation_decay : pyval :=
  PTuple [state_ab;
          PDict [(PStr "k1", PList [])];
          PDict [(PStr "k1", PList [PTuple [state_ab; PInt 1]])]].

(** [(state_ab, {"k1": []}, {"k1": []})] *)
Definition equation_empty : pyval :=
  PTuple [state_ab; PDict [(PStr "k1", PList [])]; PDict [(PStr "k1", PList [])]].

(** The entries of [(("a", 0), ("b", 1), ("c", 2), ("d", 3))]. *)
Definition entries_abcd : list pyval :=
  [entry "a" 0; entry "b" 1; entry "c" 2; entry "d" 3].

(** ** The words of the specification *)

(** A state entry as validation accepts it: a tuple of two items. *)
Definition two_tuple (e : pyval) : bool :=
  match e with
  | PTuple [_; _] => true
  | _ => false
  end.

(** A site entry of the data model: a text label with an integer or text
    index. *)
Definition site_entry (e : pyval) : bool :=
  match e with
  | PTuple [PStr _; PInt _] | PTuple [PStr _; PStr _] => true
  | _ => false
  end.

Definition well_formed_state (entries : list pyval) : bool := forallb site_entry entries.

(** [label ++ index] for one entry. *)
Definition entry_text (e : pyval) : string :=
  match e with
  | PTuple [label; index] => py_str label ++ py_str index
  | _ => EmptyString
  end.

(** The exact rendering: ["P"], the entries in their order, ["[t]"]. *)
Definition exact_text (entries : list pyval) : string :=
  "P" ++ join EmptyString (map entry_text entries) ++ "[t]".

(** The window of [k] entries that starts at entry [i]. *)
Definition window (entries : list pyval) (k i : nat) : list pyval :=
  firstn k (skipn i entries).

(** The windows of [k] entries, left to right. *)
Definition windows (entries : list pyval) (k : nat) : list (list pyval) :=
  map (window entries k) (seq 0 (List.length entries - k + 1)).

(** The pairs [(l_i, l_j)] with [i < j]: [i] ascending, then [j] ascending. *)
Fixpoint scan_pairs {A : Type} (l : list A) : list (A * A) :=
  match l with
  | [] => []
  | x :: xs => map (pair x) xs ++ scan_pairs xs
  end.

Definition nonempty {A : Type} (l : list A) : bool :=
  match l with
  | [] => false
  | _ :: _ => true
  end.

(** What a pair of sub-states has in common, as [list_of_set] lists it. *)
Definition common (list_of_set : set_order) (ab : list pyval * list pyval) : list pyval :=
  list_of_set (intersection (distinct (fst ab)) (distinct (snd ab))).

(** The denominator factors: one for each scanned pair of sub-states that
    has something in common. *)
Definition denominator_factors (list_of_set : set_order) (numerator : list (list pyval))
    : list (list pyval) :=
  filter nonempty (map (common list_of_set) (scan_pairs numerator)).

(** The mean-field text: the numerator renderings joined by one space, over
    the denominator renderings when there are any. *)
Definition mean_field_text (numerator denominator : list (list pyval)) : string :=
  join " " (map exact_text numerator)
  ++ (if nonempty denominator
      then "/(" ++ join " " (map exact_text denominator) ++ ")"
      else EmptyString).

(** The binomial coefficient. *)
Fixpoint choose (n k : nat) : nat :=
  match n, k with
  | _, O => 1
  | O, S _ => 0
  | S n', S k' => choose n' k' + choose n' (S k')
  end.

(** The text without the character [c]. *)
Fixpoint remove_char (c : ascii) (s : string) : string :=
  match s with
  | EmptyString => EmptyString
  | String c' s' => if Ascii.eqb c' c then remove_char c s' else String c' (remove_char c s')
  end.

(** The numeral a multiplicity is printed as: none up to 1. *)
Definition multiplicity_prefix (m : Z) : string :=
  if 1 <? m then str_of_int m else EmptyString.

(** A weighted state [(state, m)] with an integer multiplicity. *)
Definition weighted (w : pyval * Z) : pyval := PTuple [fst w; PInt (snd w)].

(** A rendered state behind the numeral of its multiplicity. *)
Definition weighted_text (m : Z) (text : string) : string :=
  multiplicity_prefix m ++ text.

(** The clause of one state: sign, numeral, rate, state. *)
Definition single_clause (sign : string) (m : Z) (rate text : string) : string :=
  sign ++ str_of_int m ++ " " ++ rate ++ " " ++ text.

(** The clause of several states: sign, rate, and the sum of the terms
    between parentheses. *)
Definition multi_clause (sign rate : string) (terms : list string) : string :=
  sign ++ rate ++ " (" ++ join "+" terms ++ ")".

(** The terms of a list of weighted states, given the rendering of each
    state. *)
Definition weighted_texts (ws : list (pyval * Z)) (texts : list string) : list string :=
  map (fun wt => weighted_text (snd (fst wt)) (snd wt)) (combine ws texts).

(** Text of numeric characters only. *)
Fixpoint numeral (s : string) : bool :=
  match s with
  | EmptyString => true
  | String c s' => isnumeric c && numeral s'
  end.

(** The order of the state itself: what the claims about the order of the
    denominator entries assume of [list(set)]. *)
Definition state_order : set_order := fun l => l.

(** ** The other renderers of [MathematicaFormatter] *)

Definition newline : ascii := ascii_of_nat 10.
Definition tab : ascii := ascii_of_nat 9.

(** [s.split(sep)] for a separator of several characters: the occurrences of
    [sep] are found from the left and do not overlap; [skip] counts the
    characters of the occurrence that are still to pass. *)
Fixpoint split_text_from (sep : string) (skip : nat) (s : string) : list string :=
  match s with
  | EmptyString => [EmptyString]
  | String c s' =>
      match skip with
      | S skip' => split_text_from sep skip' s'
      | O =>
          if String.prefix sep s
          then EmptyString :: split_text_from sep (String.length sep - 1) s'
          else match split_text_from sep 0 s' with
               | [] => [char c]
               | w :: ws => String c w :: ws
               end
      end
  end.

Definition split_text (sep : string) (s : string) : list string :=
  split_text_from sep 0 s.

(** [s[-1]] *)
Fixpoint str_last (s : string) : result ascii :=
  match s with
  | EmptyString => Raise IndexError
  | String c EmptyString => Ok c
  | String _ s' => str_last s'
  end.

(** [s[:-1]] *)
Fixpoint str_init (s : string) : string :=
  match s with
  | EmptyString => EmptyString
  | String c EmptyString => EmptyString
  | String c s' => String c (str_init s')
  end.

(** [sep.join(v)]: [v] is iterated and each of its items has to be text. *)
Definition join_text (sep : string) (v : pyval) : result string :=
  items <- iterate v ;;
  texts <- mapM (fun item => match item with
                             | PStr s => Ok s
                             | _ => Raise TypeError
                             end) items ;;
  Ok (join sep texts).

(** [get_constraint(constraint)] *)
Definition get_constraint (list_of_set : set_order) (constraint : pyval) : result string :=
  low_state <- getitem constraint (PInt 0) ;;
  low_state_string <- get_state list_of_set low_state 0 ;;
  let low_state_string :=
    join EmptyString (split_text "[t]" low_state_string) ++ "[t_]" in
  others <- getitem constraint (PInt 1) ;;
  others <- iterate others ;;
  other_states <- mapM (fun state => get_state list_of_set state 0) others ;;
  let other_states := join " + " other_states in
  Ok (low_state_string ++ " := " ++ other_states).

(** [get_initial_condition(state, time, value)] *)
Definition get_initial_condition (list_of_set : set_order) (state time value : pyval)
    : result string :=
  state_string <- get_state list_of_set state 0 ;;
  let initial_condition_string :=
    join EmptyString (slice (split_text "[t]" state_string) 0 (-1)) in
  Ok (initial_condition_string ++ "[" ++ py_str time ++ "] == " ++ py_str value).

(** [get_state_raw(state)] *)
Definition get_state_raw (list_of_set : set_order) (state : pyval) : result string :=
  state_string <- get_state list_of_set state 0 ;;
  Ok (strip (join EmptyString (split_text "[t]" state_string))).

(** The functions nested in [join_equations], for a dictionary [quantities]
    given by its items. *)
Module Join.

(** [",\n\t"] *)
Definition separator : string := String "," (String newline (char tab)).

(** [format_equations()], which builds the text of the equations and returns
    nothing. *)
Definition format_equations (quantities : list (pyval * pyval)) : result pyval :=
  equations <- getitem (PDict quantities) (PStr "equations") ;;
  equations <- join_text separator equations ;;
  conditions <- getitem (PDict quantities) (PStr "initial conditions") ;;
  conditions <- join_text separator conditions ;;
  let equations_list := equations ++ char tab ++ conditions in
  last <- str_last equations_list ;;
  let equations_list :=
    if Ascii.eqb last newline then str_init equations_list else equations_list in
  let equations_list :=
    "equations = {" ++ String newline (char tab) ++ equations_list
    ++ String newline "}" in
  Ok PNone.

Definition validate_dictionary (quantities : list (pyval * pyval)) (keys0 : list pyval)
    : result unit :=
  let keys0_0 := map fst quantities in
  if negb (Equation.same_keys keys0_0 keys0) then Raise ValueError else Ok tt.

End Join.

(** [join_equations(quantities)]: the function has no [return], so its value
    is [None]. *)
Definition join_equations (quantities : list (pyval * pyval)) : result pyval :=
  let keys := [PStr "constraints"; PStr "equations"; PStr "initial conditions";
               PStr "rate values"; PStr "raw states"] in
  _ <- Join.validate_dictionary quantities keys ;;
  equations_list <- Join.format_equations quantities ;;
  Ok PNone.

(** ** Words for the further properties *)

(** [s] with each character [c] put between two spaces. *)
Fixpoint spaced (c : ascii) (s : string) : string :=
  match s with
  | EmptyString => EmptyString
  | String c' s' =>
      if Ascii.eqb c' c then String " " (String c (String " " (spaced c s')))
      else String c' (spaced c s')
  end.

Definition starts_with (c : ascii) (s : string) : bool :=
  match s with
  | EmptyString => false
  | String c' _ => Ascii.eqb c' c
  end.

(** Every [c] in [s] has a space before it and a space after it; [before]
    tells whether a space comes just before [s]. *)
Fixpoint between_spaces (c : ascii) (before : bool) (s : string) : bool :=
  match s with
  | EmptyString => true
  | String c' s' =>
      if Ascii.eqb c' c
      then before && starts_with " " s' && between_spaces c false s'
      else between_spaces c (Ascii.eqb c' " ") s'
  end.

(** Text with no ["["] and no white space in it. *)
Fixpoint plain (s : string) : bool :=
  match s with
  | EmptyString => true
  | String c s' => negb (Ascii.eqb c "[") && negb (isspace c) && plain s'
  end.

(** The labels and indices of the entries, one after the other. *)
Definition entries_text (entries : list pyval) : string :=
  join EmptyString (map entry_text entries).

(** No lower-case letter in the text. *)
Fixpoint no_lower (s : string) : bool :=
  match s with
  | EmptyString => true
  | String c s' =>
      negb ((97 <=? nat_of_ascii c) && (nat_of_ascii c <=? 122))%nat && no_lower s'
  end.

(** The entries that the windows at [i] and at [j >= i] share. *)
Definition overlap (entries : list pyval) (k : nat) (ij : nat * nat) : list pyval :=
  window entries (fst ij + k - snd ij) (snd ij).

(** A list of weighted states whose states are well-formed. *)
Definition weighted_list (v : pyval) : Prop :=
  exists ws : list (pyval * Z),
    v = PList (map weighted ws)
    /\ Forall (fun w => exists entries,
                          fst w = PTuple entries /\ well_formed_state entries = true) ws.

(** A state as [validate_state] accepts it: a tuple of tuples of two items. *)
Definition accepted_state (state : pyval) : bool :=
  match state with
  | PTuple entries => forallb two_tuple entries
  | _ => false
  end.

(** * Properties *)

(** ** Python builtins *)

Lemma py_eqb_refl : forall v, py_eqb v v = true.
Proof.
  induction v using pyval_nested_ind; simpl; auto using Z.eqb_refl, String.eqb_refl.
  - induction H; simpl; auto. rewrite H, IHForall. reflexivity.
  - induction H; simpl; auto. rewrite H, IHForall. reflexivity.
  - induction H as [|[k x] l [Hk Hx] _ IH]; simpl in *; auto.
    rewrite Hk, Hx, IH. reflexivity.
Qed.

Lemma py_eqb_eq : forall a b, py_eqb a b = true <-> a = b.
Proof.
  intros a b. split; [|intros ->; apply py_eqb_refl].
  revert b. induction a using pyval_nested_ind; intros b; destruct b; simpl;
    try discriminate; try reflexivity.
  - intros E. apply Z.eqb_eq in E. congruence.
  - intros E. apply String.eqb_eq in E. congruence.
  - intros E. f_equal. revert items0 E.
    induction H as [|x l Hx _ IH]; intros [|y ys]; try discriminate; auto.
    intros E. apply andb_true_iff in E as [E1 E2].
    f_equal; [apply Hx, E1 | apply IH, E2].
  - intros E. f_equal. revert items0 E.
    induction H as [|x l Hx _ IH]; intros [|y ys]; try discriminate; auto.
    intros E. apply andb_true_iff in E as [E1 E2].
    f_equal; [apply Hx, E1 | apply IH, E2].
  - intros E. f_equal. revert items0 E.
    induction H as [|[k x] l [Hk Hx] _ IH]; intros [|[k' y] ys]; try discriminate; auto.
    intros E. apply andb_true_iff in E as [E1 E2].
    apply andb_true_iff in E1 as [E0 E1]. simpl in *.
    f_equal; [f_equal; [apply Hk, E0 | apply Hx, E1] | apply IH, E2].
Qed.

Lemma mem_In : forall x l, mem x l = true <-> In x l.
Proof.
  intros x l. unfold mem. rewrite existsb_exists. split.
  - intros [y [Hy E]]. apply py_eqb_eq in E. subst. exact Hy.
  - intros H. exists x. split; [exact H | apply py_eqb_refl].
Qed.

Lemma append_empty_r : forall s, s ++ EmptyString = s.
Proof. induction s; simpl; congruence. Qed.

Lemma append_assoc : forall a b c : string, (a ++ b) ++ c = a ++ (b ++ c).
Proof. induction a; simpl; intros; congruence. Qed.

Lemma join_empty_cons : forall x l, join EmptyString (x :: l) = x ++ join EmptyString l.
Proof.
  intros x [|y l]; simpl.
  - symmetry. apply append_empty_r.
  - reflexivity.
Qed.

Lemma split_cons : forall c s, exists w ws, split c s = w :: ws.
Proof.
  intros c s. destruct s as [|a s]; simpl.
  - eauto.
  - destruct (Ascii.eqb a c); [eauto|].
    destruct (split c s); eauto.
Qed.

Lemma join_split_remove : forall c s, join EmptyString (split c s) = remove_char c s.
Proof.
  intros c. induction s as [|a s IH]; simpl.
  - reflexivity.
  - destruct (Ascii.eqb a c).
    + rewrite join_empty_cons. exact IH.
    + destruct (split_cons c s) as [w [ws E]]. rewrite E in *.
      rewrite join_empty_cons in *. simpl. congruence.
Qed.

Lemma bind_ok_id : forall (A : Type) (r : result A), bind r Ok = r.
Proof. intros A [a|e]; reflexivity. Qed.

(** ** The rate renderer *)

(** C9: [get_rate] of text is the text without its dots, in upper case;
    [get_rate] of anything else raises [TypeError]; and [get_rate_value]
    is [get_rate], then [" = "], then [str(value)]. *)
Theorem get_rate_strips_dots_and_uppercases :
  forall rate value : pyval,
    match rate with
    | PStr text =>
        get_rate rate = Ok (upper (remove_char "." text))
        /\ get_rate_value rate value
           = Ok (upper (remove_char "." text) ++ " = " ++ py_str value)
    | _ =>
        get_rate rate = Raise TypeError
        /\ get_rate_value rate value = Raise TypeError
    end.
Proof.
  intros rate value. destruct rate; try (split; reflexivity).
  unfold get_rate_value, get_rate. rewrite join_split_remove. split; reflexivity.
Qed.

Example get_rate_example :
  get_rate (PStr "k.o2.ads") = Ok "KO2ADS"
  /\ get_rate_value (PStr "k.o2.ads") (PInt 3) = Ok "KO2ADS = 3"
  /\ get_rate (PInt 3) = Raise TypeError.
Proof. repeat split; reflexivity. Qed.

(** ** The end-to-end examples *)

(** C1, as the code has it: the first sign of the right-hand side is dropped,
    so the creation example gives ["D[Pa0b1[t], t] == 2 K1 Pa0b1[t]"] when the
    weighted state is the target state with multiplicity 2; with the creation
    entry written as in the example, whose state is the 1-tuple holding the
    target state, the state token is [P('a', 0)('b', 1)[t]]. *)
Theorem create_example_output :
  forall list_of_set : set_order,
    get_equation list_of_set equation_create 0
    = Ok "D[Pa0b1[t], t] == 2 K1 Pa0b1[t]"
    /\ get_equation list_of_set equation_create_written 0
       = Ok "D[Pa0b1[t], t] == 2 K1 P('a', 0)('b', 1)[t]".
Proof. intros list_of_set. split; vm_compute; reflexivity. Qed.

(** C1, as stated, fails: neither reading of the creation map gives
    ["D[Pa0b1[t], t] == + 2 K1 Pa0b1[t]"]. *)
Lemma create_example_claimed_output_fails :
  get_equation state_order equation_create_written 0
  <> Ok "D[Pa0b1[t], t] == + 2 K1 Pa0b1[t]"
  /\ get_equation state_order equation_create 0
     <> Ok "D[Pa0b1[t], t] == + 2 K1 Pa0b1[t]".
Proof. split; vm_compute; discriminate. Qed.

(** C2, as the code has it: the kept minus sign is put back with no space
    after it, so the decay example gives ["D[Pa0b1[t], t] == -K1 Pa0b1[t]"]. *)
Theorem decay_example_output :
  forall list_of_set : set_order,
    get_equation list_of_set equation_decay 0 = Ok "D[Pa0b1[t], t] == -K1 Pa0b1[t]".
Proof. intros list_of_set. vm_compute. reflexivity. Qed.

(** C2, as stated, fails: the output is not
    ["D[Pa0b1[t], t] == - K1 Pa0b1[t]"]. *)
Lemma decay_example_claimed_output_fails :
  get_equation state_order equation_decay 0 <> Ok "D[Pa0b1[t], t] == - K1 Pa0b1[t]".
Proof. vm_compute. discriminate. Qed.

(** C3, at the failing input: the record [equation_empty] passes validation
    and its one rate has an empty creation list and an empty decay list;
    [get_equation] raises [IndexError] on it, at [equation_string0[0]] in
    [format_equation_string]. *)
Theorem empty_lists_raise_index_error :
  forall (list_of_set : set_order) (order : Z),
    Equation.validate_equation equation_empty = Ok tt
    /\ get_equation list_of_set equation_empty order = Raise IndexError.
Proof. intros list_of_set order. split; reflexivity. Qed.

(** ** Multiplicities *)

(** C10: a weighted state whose multiplicity is an integer up to 1, zero and
    negative numbers included, is rendered as the state alone, exactly as
    with multiplicity 1; nothing but the length of the pair is checked, so
    the only errors are those of rendering the state. *)
Theorem multiplicity_at_most_one_unprinted :
  forall (list_of_set : set_order) (order : Z) (state : pyval) (m : Z),
    m <= 1 ->
    Equation.format_state_multiplicity list_of_set order (PTuple [state; PInt m])
    = get_state list_of_set state order
    /\ Equation.format_state_multiplicity list_of_set order (PTuple [state; PInt m])
       = Equation.format_state_multiplicity list_of_set order (PTuple [state; PInt 1]).
Proof.
  intros list_of_set order state m Hm.
  assert (E : forall n, n <= 1 ->
            Equation.format_state_multiplicity list_of_set order (PTuple [state; PInt n])
            = get_state list_of_set state order).
  { intros n Hn. unfold Equation.format_state_multiplicity. simpl.
    replace (1 <? n) with false by (symmetry; apply Z.ltb_ge; exact Hn).
    simpl. apply bind_ok_id. }
  split.
  - apply E, Hm.
  - rewrite (E m Hm), (E 1); [reflexivity | lia].
Qed.

Lemma multiplicity_at_most_one_unprinted_witness :
  Equation.format_state_multiplicity state_order 0 (PTuple [state_ab; PInt (-3)])
  = Ok "Pa0b1[t]"
  /\ Equation.format_state_multiplicity state_order 0 (PTuple [state_ab; PInt 0])
     = Equation.format_state_multiplicity state_order 0 (PTuple [state_ab; PInt 1]).
Proof.
  split.
  - rewrite (proj1 (multiplicity_at_most_one_unprinted state_order 0 state_ab (-3) ltac:(lia))).
    reflexivity.
  - exact (proj2 (multiplicity_at_most_one_unprinted state_order 0 state_ab 0 ltac:(lia))).
Defined.

(** ** Validation of the equation record *)

Lemma same_keys_iff :
  forall a b, Equation.same_keys a b = true <-> (forall k, In k a <-> In k b).
Proof.
  intros a b. unfold Equation.same_keys.
  rewrite andb_true_iff, !forallb_forall. split.
  - intros [Hab Hba] k. split; intros Hk.
    + apply mem_In, Hab, Hk.
    + apply mem_In, Hba, Hk.
  - intros H. split; intros k Hk; apply mem_In, H, Hk.
Qed.

(** C4: a record whose creation map and decay map have different key sets
    fails validation, whatever the lists under the keys are; the error of
    [get_equation] is the one [validate_equation] raises, before any state is
    rendered, and it is [ValueError] when the target state is valid. *)
Theorem different_key_sets_fail_validation :
  forall (list_of_set : set_order) (state : pyval)
         (creation decay : list (pyval * pyval)) (order : Z),
    ~ (forall k, In k (map fst creation) <-> In k (map fst decay)) ->
    exists e,
      Equation.validate_equation (PTuple [state; PDict creation; PDict decay]) = Raise e
      /\ get_equation list_of_set (PTuple [state; PDict creation; PDict decay]) order
         = Raise e
      /\ (Equation.validate_state state = Ok tt -> e = ValueError).
Proof.
  intros list_of_set state creation decay order Hkeys.
  assert (Hsame : Equation.same_keys (map fst creation) (map fst decay) = false).
  { destruct (Equation.same_keys (map fst creation) (map fst decay)) eqn:E; auto.
    exfalso. apply Hkeys, same_keys_iff, E. }
  unfold get_equation, Equation.validate_equation. simpl.
  destruct (Equation.validate_state state) as [[]|e] eqn:Hstate; simpl.
  - rewrite Hsame. simpl. exists ValueError. auto.
  - exists e. repeat split. intros H. discriminate H.
Qed.

Lemma different_key_sets_fail_validation_witness :
  exists e,
    Equation.validate_equation
      (PTuple [state_ab; PDict [(PStr "k1", PList [])];
               PDict [(PStr "k1", PList []); (PStr "k2", PList [])]]) = Raise e
    /\ get_equation state_order
         (PTuple [state_ab; PDict [(PStr "k1", PList [])];
                  PDict [(PStr "k1", PList []); (PStr "k2", PList [])]]) 0 = Raise e
    /\ (Equation.validate_state state_ab = Ok tt -> e = ValueError).
Proof.
  apply (different_key_sets_fail_validation state_order state_ab
           [(PStr "k1", PList [])] [(PStr "k1", PList []); (PStr "k2", PList [])] 0).
  intros H. destruct (proj2 (H (PStr "k2"))) as [E|[]].
  - simpl. right. left. reflexivity.
  - discriminate E.
Defined.

(** ** The exact rendering *)

Lemma two_tuple_inv : forall e, two_tuple e = true -> exists a b, e = PTuple [a; b].
Proof.
  intros e H. destruct e as [| | |items| |]; try discriminate.
  destruct items as [|a [|b [|c l]]]; try discriminate. eauto.
Qed.

Lemma validate_substates_two_tuples :
  forall entries, forallb two_tuple entries = true -> State.validate_substates entries = Ok tt.
Proof.
  induction entries as [|e l IH]; simpl; intros H.
  - reflexivity.
  - apply andb_true_iff in H as [He Hl].
    destruct (two_tuple_inv e He) as [a [b ->]]. simpl. auto.
Qed.

Lemma format_entry_two_tuple :
  forall e, two_tuple e = true -> State.format_entry e = Ok (entry_text e).
Proof.
  intros e H. destruct (two_tuple_inv e H) as [a [b ->]]. reflexivity.
Qed.

Lemma mapM_format_entry :
  forall entries, forallb two_tuple entries = true ->
    mapM State.format_entry entries = Ok (map entry_text entries).
Proof.
  induction entries as [|e l IH]; simpl; intros H.
  - reflexivity.
  - apply andb_true_iff in H as [He Hl].
    rewrite (format_entry_two_tuple e He), (IH Hl). reflexivity.
Qed.

Lemma get_state_string_exact :
  forall entries, forallb two_tuple entries = true ->
    State.get_state_string entries = Ok (exact_text entries).
Proof.
  intros entries H. unfold State.get_state_string.
  rewrite (mapM_format_entry entries H). reflexivity.
Qed.

Lemma get_state_without_reduction :
  forall (list_of_set : set_order) (entries : list pyval) (k : Z),
    forallb two_tuple entries = true ->
    k = 0 \/ len entries <= k ->
    get_state list_of_set (PTuple entries) k = State.get_state_string entries.
Proof.
  intros list_of_set entries k Hentries Hk.
  assert (Hlen : 0 <= len entries) by (unfold len; lia).
  unfold get_state, State.validate_state.
  replace (0 <=? k) with true by (symmetry; apply Z.leb_le; lia).
  simpl. rewrite (validate_substates_two_tuples entries Hentries). simpl.
  replace ((k =? 0) || (k >=? len entries)) with true; [reflexivity|].
  symmetry. apply orb_true_iff. destruct Hk as [-> | Hk].
  - left. reflexivity.
  - right. apply Z.geb_le. exact Hk.
Qed.

(** C7: with order 0, or an order of at least the length of the state, a
    state of two-item entries is rendered exactly: ["P"], then label and
    index of each entry in the order of the state, then ["[t]"]. *)
Theorem get_state_exact :
  forall (list_of_set : set_order) (entries : list pyval) (k : Z),
    forallb two_tuple entries = true ->
    k = 0 \/ len entries <= k ->
    get_state list_of_set (PTuple entries) k = Ok (exact_text entries).
Proof.
  intros list_of_set entries k Hentries Hk.
  rewrite (get_state_without_reduction list_of_set entries k Hentries Hk).
  apply get_state_string_exact, Hentries.
Qed.

Lemma get_state_exact_witness :
  get_state state_order (PTuple [entry "a" 0; entry "b" 1]) 0 = Ok "Pa0b1[t]"
  /\ get_state state_order (PTuple [entry "a" 0; entry "b" 1]) 5 = Ok "Pa0b1[t]".
Proof.
  split.
  - apply (get_state_exact state_order [entry "a" 0; entry "b" 1] 0).
    + reflexivity.
    + left. reflexivity.
  - apply (get_state_exact state_order [entry "a" 0; entry "b" 1] 5).
    + reflexivity.
    + right. unfold len. simpl. lia.
Defined.

(** ** The numerator of the mean-field expansion *)

Lemma map_fst_combine :
  forall (A B : Type) (a : list A) (b : list B),
    List.length a = List.length b -> map fst (combine a b) = a.
Proof.
  induction a as [|x a IH]; intros [|y b] H; simpl in *; try discriminate; auto.
  f_equal. apply IH. lia.
Qed.

Lemma enumerate_indices :
  forall (A : Type) (l : list A),
    map fst (enumerate l) = map Z.of_nat (seq 0 (List.length l)).
Proof.
  intros A l. unfold enumerate. apply map_fst_combine.
  rewrite length_map, length_seq. reflexivity.
Qed.

Lemma slice_window :
  forall (entries : list pyval) (i k : nat),
    (i + k <= List.length entries)%nat ->
    slice entries (Z.of_nat i) (Z.of_nat i + Z.of_nat k) = window entries k i.
Proof.
  intros entries i k H. unfold slice, window, clamp, len.
  replace (Z.of_nat i <? 0) with false by (symmetry; apply Z.ltb_ge; lia).
  replace (Z.of_nat i + Z.of_nat k <? 0) with false by (symmetry; apply Z.ltb_ge; lia).
  rewrite !Z.min_l by lia.
  replace (Z.to_nat (Z.of_nat i + Z.of_nat k - Z.of_nat i)) with k by lia.
  rewrite Nat2Z.id. reflexivity.
Qed.

Lemma get_numerator_loop_windows :
  forall (entries : list pyval) (k m s : nat),
    State.get_numerator_loop entries (Z.of_nat k) (map Z.of_nat (seq s m))
    = map (window entries k) (seq s (Nat.min m (List.length entries + 1 - k - s))).
Proof.
  intros entries k. induction m as [|m IH]; intros s; simpl.
  - reflexivity.
  - unfold len. destruct (Z.of_nat s + Z.of_nat k >? Z.of_nat (List.length entries)) eqn:E.
    + apply Z.gtb_lt in E.
      replace (List.length entries + 1 - k - s)%nat with O by lia. reflexivity.
    + assert (Hs : (s + k <= List.length entries)%nat).
      { destruct (Z.gtb_spec (Z.of_nat s + Z.of_nat k) (Z.of_nat (List.length entries)));
          [discriminate | lia]. }
      replace (List.length entries + 1 - k - s)%nat
        with (S (List.length entries + 1 - k - S s)) by lia.
      simpl. rewrite IH, (slice_window entries s k Hs). reflexivity.
Qed.

Lemma get_numerator_windows :
  forall (entries : list pyval) (k : Z),
    0 < k < len entries ->
    State.get_numerator entries k = windows entries (Z.to_nat k).
Proof.
  intros entries k Hk. unfold len in Hk. unfold State.get_numerator, windows.
  rewrite enumerate_indices.
  replace k with (Z.of_nat (Z.to_nat k)) at 1 by lia.
  rewrite get_numerator_loop_windows. f_equal. f_equal. lia.
Qed.

Lemma windows_length :
  forall (entries : list pyval) (k : nat),
    List.length (windows entries k) = (List.length entries - k + 1)%nat.
Proof. intros. unfold windows. rewrite length_map, length_seq. reflexivity. Qed.

Lemma In_firstn : forall (A : Type) (x : A) n l, In x (firstn n l) -> In x l.
Proof.
  intros A x. induction n as [|n IH]; intros [|y l] H; simpl in *;
    try contradiction.
  destruct H as [H|H]; auto.
Qed.

Lemma In_skipn : forall (A : Type) (x : A) n l, In x (skipn n l) -> In x l.
Proof.
  intros A x. induction n as [|n IH]; intros [|y l] H; simpl in *; auto.
Qed.

Lemma In_window : forall entries k i x, In x (window entries k i) -> In x entries.
Proof. intros entries k i x H. eapply In_skipn, In_firstn, H. Qed.

Lemma windows_forallb :
  forall (p : pyval -> bool) entries k,
    forallb p entries = true -> forallb (forallb p) (windows entries k) = true.
Proof.
  intros p entries k H. rewrite forallb_forall in H.
  apply forallb_forall. intros w Hw. apply in_map_iff in Hw as [i [<- _]].
  apply forallb_forall. intros x Hx. eapply H, In_window, Hx.
Qed.

(** ** The denominator of the mean-field expansion *)

Lemma len_positive_nonempty : forall (A : Type) (l : list A), (len l >? 0) = nonempty l.
Proof.
  intros A [|x l]; unfold len; simpl.
  - reflexivity.
  - apply Z.gtb_lt. lia.
Qed.

Lemma get_denominator_inner_scan :
  forall (list_of_set : set_order) (i : nat) (a : list pyval),
    forallb hashable a = true ->
    forall (l : list (list pyval)) (s : nat) (acc : list (list pyval)),
      forallb (forallb hashable) l = true ->
      State.get_denominator_inner list_of_set (Z.of_nat i) a
        (combine (map Z.of_nat (seq s (List.length l))) l) acc
      = Ok (acc ++ filter nonempty
                     (map (fun b => common list_of_set (a, b)) (skipn (i + 1 - s) l)))%list.
Proof.
  intros list_of_set i a Ha. induction l as [|b l IH]; intros s acc Hl.
  - simpl. rewrite skipn_nil. simpl. rewrite app_nil_r. reflexivity.
  - simpl in Hl. apply andb_true_iff in Hl as [Hb Hl]. simpl.
    destruct (Z.leb_spec (Z.of_nat s) (Z.of_nat i)) as [Hs|Hs].
    + rewrite (IH (S s) acc Hl).
      replace (i + 1 - s)%nat with (S (i + 1 - S s)) by lia. reflexivity.
    + replace (i + 1 - s)%nat with O by lia. simpl.
      unfold set_of. rewrite Ha, Hb. simpl.
      rewrite len_positive_nonempty. unfold common at 1 3. simpl.
      destruct (nonempty _) eqn:E.
      * rewrite (IH (S s) _ Hl). replace (i + 1 - S s)%nat with O by lia.
        simpl. rewrite <- app_assoc. reflexivity.
      * rewrite (IH (S s) _ Hl). replace (i + 1 - S s)%nat with O by lia.
        reflexivity.
Qed.

Lemma skipn_S_tail :
  forall (A : Type) (s : nat) (l : list A) (x : A) (t : list A),
    skipn s l = x :: t -> skipn (S s) l = t.
Proof.
  intros A. induction s as [|s IH]; intros [|y l] x t H; try discriminate.
  - simpl in *. congruence.
  - change (skipn (S s) l = t). apply (IH l x t). exact H.
Qed.

Lemma get_denominator_outer_scan :
  forall (list_of_set : set_order) (numerator : list (list pyval)),
    forallb (forallb hashable) numerator = true ->
    forall (l : list (list pyval)) (s : nat) (acc : list (list pyval)),
      skipn s numerator = l ->
      State.get_denominator_outer list_of_set numerator
        (combine (map Z.of_nat (seq s (List.length l))) l) acc
      = Ok (acc ++ denominator_factors list_of_set l)%list.
Proof.
  intros list_of_set numerator Hnum.
  induction l as [|a l IH]; intros s acc Hs.
  - simpl. rewrite app_nil_r. reflexivity.
  - assert (Ha : forallb hashable a = true).
    { rewrite forallb_forall in Hnum. apply Hnum.
      apply (In_skipn _ a s). rewrite Hs. left. reflexivity. }
    simpl. unfold enumerate.
    rewrite (get_denominator_inner_scan list_of_set s a Ha numerator 0 acc Hnum).
    simpl. replace (s + 1 - 0)%nat with (S s) by lia.
    rewrite (skipn_S_tail _ s numerator a l Hs).
    rewrite (IH (S s) _ (skipn_S_tail _ s numerator a l Hs)).
    unfold denominator_factors. simpl.
    rewrite map_app, filter_app, map_map, app_assoc. reflexivity.
Qed.

Lemma get_denominator_factors :
  forall (list_of_set : set_order) (numerator : list (list pyval)),
    forallb (forallb hashable) numerator = true ->
    State.get_denominator list_of_set numerator
    = Ok (denominator_factors list_of_set numerator).
Proof.
  intros list_of_set numerator H. unfold State.get_denominator, enumerate.
  apply (get_denominator_outer_scan list_of_set numerator H numerator 0 []).
  reflexivity.
Qed.

Lemma In_distinct : forall x l, In x (distinct l) <-> In x l.
Proof.
  intros x. induction l as [|y l IH]; simpl.
  - tauto.
  - rewrite filter_In, IH. split.
    + intros [H|[H _]]; auto.
    + intros [H|H]; auto.
      destruct (py_eqb y x) eqn:E.
      * left. apply py_eqb_eq, E.
      * right. auto.
Qed.

Lemma In_intersection : forall x a b, In x (intersection a b) <-> In x a /\ In x b.
Proof. intros x a b. unfold intersection. rewrite filter_In, mem_In. tauto. Qed.

Lemma In_common :
  forall (list_of_set : set_order) (a b : list pyval) (x : pyval),
    set_order_ok list_of_set ->
    In x (common list_of_set (a, b)) <-> In x a /\ In x b.
Proof.
  intros list_of_set a b x Hok. unfold common. simpl.
  rewrite <- (In_distinct x a), <- (In_distinct x b), <- In_intersection.
  split; apply Permutation_in; [|symmetry]; apply Hok.
Qed.

Lemma scan_pairs_In :
  forall (A : Type) (l : list A) (a b : A),
    In (a, b) (scan_pairs l) ->
    exists i j, (i < j)%nat /\ nth_error l i = Some a /\ nth_error l j = Some b.
Proof.
  intros A. induction l as [|x l IH]; intros a b H; simpl in H.
  - contradiction.
  - apply in_app_or in H as [H|H].
    + apply in_map_iff in H as [y [E Hy]]. inversion E; subst.
      apply In_nth_error in Hy as [j Hj].
      exists O, (S j). repeat split; [lia | exact Hj].
    + destruct (IH a b H) as [i [j [Hij [Hi Hj]]]].
      exists (S i), (S j). repeat split; [lia | exact Hi | exact Hj].
Qed.

Lemma choose_1 : forall n, choose n 1 = n.
Proof.
  induction n as [|n IH]; simpl.
  - reflexivity.
  - destruct n; simpl in *; lia.
Qed.

Lemma scan_pairs_length :
  forall (A : Type) (l : list A), List.length (scan_pairs l) = choose (List.length l) 2.
Proof.
  intros A. induction l as [|x l IH].
  - reflexivity.
  - change (List.length (map (pair x) l ++ scan_pairs l)%list
            = (choose (List.length l) 1 + choose (List.length l) 2)%nat).
    rewrite length_app, length_map, IH, choose_1. reflexivity.
Qed.

Lemma denominator_factors_length :
  forall (list_of_set : set_order) (numerator : list (list pyval)),
    (List.length (denominator_factors list_of_set numerator)
     <= choose (List.length numerator) 2)%nat.
Proof.
  intros list_of_set numerator. unfold denominator_factors.
  rewrite <- scan_pairs_length, <- (length_map (common list_of_set)).
  apply filter_length_le.
Qed.

Lemma denominator_factors_common :
  forall (list_of_set : set_order) (numerator : list (list pyval)) (d : list pyval),
    In d (denominator_factors list_of_set numerator) ->
    d <> []
    /\ exists i j a b,
         (i < j)%nat /\ nth_error numerator i = Some a /\ nth_error numerator j = Some b
         /\ d = common list_of_set (a, b).
Proof.
  intros list_of_set numerator d H. unfold denominator_factors in H.
  apply filter_In in H as [H Hd]. split.
  - intros ->. discriminate Hd.
  - apply in_map_iff in H as [[a b] [E H]].
    destruct (scan_pairs_In _ numerator a b H) as [i [j Hij]].
    exists i, j, a, b. intuition auto.
Qed.

(** ** The mean-field rendering *)

Lemma site_entry_two_tuple : forall e, site_entry e = true -> two_tuple e = true.
Proof.
  intros e H. destruct e as [| | |items| |]; try discriminate.
  destruct items as [|a [|b [|c l]]]; try discriminate; try reflexivity.
  - destruct a; discriminate.
  - destruct a; try discriminate. destruct b; discriminate.
Qed.

Lemma site_entry_hashable : forall e, site_entry e = true -> hashable e = true.
Proof.
  intros e H. destruct e as [| | |items| |]; try discriminate.
  destruct items as [|a [|b [|c l]]]; try discriminate.
  - destruct a; discriminate.
  - destruct a; try discriminate. destruct b; try discriminate; reflexivity.
  - destruct a; try discriminate. destruct b; discriminate.
Qed.

Lemma forallb_impl :
  forall (A : Type) (p q : A -> bool) (l : list A),
    (forall x, p x = true -> q x = true) -> forallb p l = true -> forallb q l = true.
Proof.
  intros A p q l Hpq H. rewrite forallb_forall in *. auto.
Qed.

Lemma mapM_get_state_string :
  forall states : list (list pyval),
    forallb (forallb two_tuple) states = true ->
    mapM State.get_state_string states = Ok (map exact_text states).
Proof.
  induction states as [|s l IH]; simpl; intros H.
  - reflexivity.
  - apply andb_true_iff in H as [Hs Hl].
    rewrite (get_state_string_exact s Hs), (IH Hl). reflexivity.
Qed.

Lemma denominator_factors_forallb :
  forall (p : pyval -> bool) (list_of_set : set_order) (numerator : list (list pyval)),
    set_order_ok list_of_set ->
    forallb (forallb p) numerator = true ->
    forallb (forallb p) (denominator_factors list_of_set numerator) = true.
Proof.
  intros p list_of_set numerator Hok H. rewrite forallb_forall in H.
  apply forallb_forall. intros d Hd.
  destruct (denominator_factors_common _ _ _ Hd) as [_ [i [j [a [b [_ [Ha [_ ->]]]]]]]].
  apply forallb_forall. intros x Hx.
  apply (In_common list_of_set a b x Hok) in Hx as [Hx _].
  apply nth_error_In in Ha. specialize (H a Ha). rewrite forallb_forall in H. auto.
Qed.

(** Between order 0 and the length of the state, [get_state] renders the
    windows of [order] entries, then the denominator factors of the scanned
    pairs of windows. *)
Lemma get_state_mean_field :
  forall (list_of_set : set_order) (entries : list pyval) (k : Z),
    set_order_ok list_of_set ->
    well_formed_state entries = true ->
    0 < k < len entries ->
    get_state list_of_set (PTuple entries) k
    = Ok (mean_field_text (windows entries (Z.to_nat k))
            (denominator_factors list_of_set (windows entries (Z.to_nat k)))).
Proof.
  intros list_of_set entries k Hok Hwf Hk.
  assert (Htwo : forallb two_tuple entries = true)
    by (eapply forallb_impl; [apply site_entry_two_tuple | exact Hwf]).
  assert (Hhash : forallb hashable entries = true)
    by (eapply forallb_impl; [apply site_entry_hashable | exact Hwf]).
  unfold get_state, State.validate_state.
  replace (0 <=? k) with true by (symmetry; apply Z.leb_le; lia).
  simpl. rewrite (validate_substates_two_tuples entries Htwo). simpl.
  replace ((k =? 0) || (k >=? len entries)) with false.
  2:{ symmetry. apply orb_false_iff. split.
      - apply Z.eqb_neq. lia.
      - destruct (Z.geb_spec k (len entries)); [lia | reflexivity]. }
  rewrite (get_numerator_windows entries k Hk).
  set (numerator := windows entries (Z.to_nat k)).
  assert (Hnum2 : forallb (forallb two_tuple) numerator = true)
    by (apply windows_forallb, Htwo).
  assert (Hnumh : forallb (forallb hashable) numerator = true)
    by (apply windows_forallb, Hhash).
  rewrite (get_denominator_factors list_of_set numerator Hnumh). simpl.
  rewrite (mapM_get_state_string numerator Hnum2). simpl.
  rewrite len_positive_nonempty. unfold mean_field_text.
  destruct (nonempty (denominator_factors list_of_set numerator)) eqn:E.
  - rewrite (mapM_get_state_string _
               (denominator_factors_forallb two_tuple list_of_set numerator Hok Hnum2)).
    reflexivity.
  - rewrite append_empty_r. reflexivity.
Qed.

Lemma state_order_ok : set_order_ok state_order.
Proof. intros l. apply Permutation_refl. Qed.

Lemma reverse_order_ok : set_order_ok (@rev pyval).
Proof. intros l. apply Permutation_sym, Permutation_rev. Qed.

(** C5: for a well-formed state of [n] entries and [0 < k < n], the numerator
    of [get_state] is the list of the [n - k + 1] windows of [k] entries, left
    to right; the denominator has at most [C(n - k + 1, 2)] factors, and each
    factor is not empty and holds exactly the entries that two of the windows
    have in common. *)
Theorem mean_field_reduction_bounds :
  forall (list_of_set : set_order) (entries : list pyval) (k : Z),
    set_order_ok list_of_set ->
    well_formed_state entries = true ->
    0 < k < len entries ->
    let numerator := State.get_numerator entries k in
    numerator = windows entries (Z.to_nat k)
    /\ len numerator = len entries - k + 1
    /\ exists denominator,
         State.get_denominator list_of_set numerator = Ok denominator
         /\ (List.length denominator <= choose (Z.to_nat (len entries - k + 1)) 2)%nat
         /\ Forall (fun d =>
                      d <> []
                      /\ exists i j a b,
                           (i < j)%nat
                           /\ nth_error numerator i = Some a
                           /\ nth_error numerator j = Some b
                           /\ forall x, In x d <-> In x a /\ In x b) denominator
         /\ get_state list_of_set (PTuple entries) k
            = Ok (mean_field_text numerator denominator).
Proof.
  intros list_of_set entries k Hok Hwf Hk numerator.
  assert (Hnum : numerator = windows entries (Z.to_nat k))
    by apply (get_numerator_windows entries k Hk).
  assert (Hlen : len numerator = len entries - k + 1).
  { rewrite Hnum. unfold len in *. rewrite windows_length. lia. }
  assert (Hhash : forallb (forallb hashable) numerator = true).
  { rewrite Hnum. apply windows_forallb.
    eapply forallb_impl; [apply site_entry_hashable | exact Hwf]. }
  split; [exact Hnum|]. split; [exact Hlen|].
  exists (denominator_factors list_of_set numerator). repeat split.
  - apply get_denominator_factors, Hhash.
  - rewrite <- Hlen. unfold len. rewrite Nat2Z.id.
    apply denominator_factors_length.
  - apply Forall_forall. intros d Hd.
    destruct (denominator_factors_common _ _ _ Hd)
      as [Hne [i [j [a [b [Hij [Ha [Hb ->]]]]]]]].
    split; [exact Hne|]. exists i, j, a, b.
    split; [exact Hij|]. split; [exact Ha|]. split; [exact Hb|].
    intros x. apply In_common, Hok.
  - rewrite Hnum. apply get_state_mean_field; assumption.
Qed.

Lemma mean_field_reduction_bounds_witness :
  let numerator := State.get_numerator entries_abcd 2 in
  numerator = windows entries_abcd 2
  /\ len numerator = 3
  /\ exists denominator,
       State.get_denominator state_order numerator = Ok denominator
       /\ (List.length denominator <= 3)%nat
       /\ Forall (fun d =>
                    d <> []
                    /\ exists i j a b,
                         (i < j)%nat
                         /\ nth_error numerator i = Some a
                         /\ nth_error numerator j = Some b
                         /\ forall x, In x d <-> In x a /\ In x b) denominator
       /\ get_state state_order (PTuple entries_abcd) 2
          = Ok (mean_field_text numerator denominator).
Proof.
  apply (mean_field_reduction_bounds state_order entries_abcd 2).
  - apply state_order_ok.
  - reflexivity.
  - unfold len. simpl. lia.
Defined.

(** C6, at the failing input: for the state of [entries_abcd] at order 3 the
    two windows share [("b", 1)] and [("c", 2)], and the denominator lists
    them as the set of the two is iterated.  Both orders are iteration
    orders of that set: one gives [Pb1c2[t]], the order of the state, the
    other [Pc2b1[t]], so the rendering is not fixed by the state and the
    order, and it need not follow the entries of the state. *)
Theorem denominator_order_varies :
  set_order_ok state_order
  /\ set_order_ok (@rev pyval)
  /\ get_state state_order (PTuple entries_abcd) 3
     = Ok "Pa0b1c2[t] Pb1c2d3[t]/(Pb1c2[t])"
  /\ get_state (@rev pyval) (PTuple entries_abcd) 3
     = Ok "Pa0b1c2[t] Pb1c2d3[t]/(Pc2b1[t])".
Proof.
  split; [apply state_order_ok|]. split; [apply reverse_order_ok|].
  split; vm_compute; reflexivity.
Qed.

(** ** Clauses *)

Lemma uint_numeral : forall d, numeral (NilEmpty.string_of_uint d) = true.
Proof. induction d; simpl; auto. Qed.

Lemma str_of_int_numeral : forall m, 0 <= m -> numeral (str_of_int m) = true.
Proof.
  intros [|p|p] H; try lia.
  - reflexivity.
  - unfold str_of_int, Z.to_int, NilZero.string_of_int, NilZero.string_of_uint.
    destruct (Pos.to_uint p) eqn:E; try reflexivity; rewrite <- E; apply uint_numeral.
Qed.

Lemma get_prefactor_loop_numeral :
  forall (digits : string) (c : ascii) (rest : string) (j : nat) (tmp : string),
    numeral digits = true ->
    isnumeric c = false ->
    Equation.get_prefactor_loop (digits ++ String c rest) j tmp
    = ((j + String.length digits)%nat, tmp ++ digits).
Proof.
  induction digits as [|d digits IH]; intros c rest j tmp Hd Hc; simpl.
  - rewrite Hc. simpl. rewrite append_empty_r. f_equal. lia.
  - simpl in Hd. apply andb_true_iff in Hd as [Hd1 Hd2]. rewrite Hd1. simpl.
    rewrite (IH c rest (S j) _ Hd2 Hc). rewrite append_assoc. simpl.
    f_equal. lia.
Qed.

Lemma str_drop_append : forall a b, str_drop (String.length a) (a ++ b) = b.
Proof. induction a; simpl; auto. Qed.

Lemma length_append :
  forall a b, String.length (a ++ b) = (String.length a + String.length b)%nat.
Proof. induction a; simpl; intros; auto. Qed.

Lemma get_prefactor_numeral :
  forall (digits : string) (c : ascii) (rest : string),
    numeral digits = true ->
    isnumeric c = false ->
    Equation.get_prefactor (digits ++ String c rest) = (digits, String c rest).
Proof.
  intros digits c rest Hd Hc. unfold Equation.get_prefactor.
  rewrite (get_prefactor_loop_numeral digits c rest 0 EmptyString Hd Hc). simpl.
  replace (String.length digits <? String.length (digits ++ String c rest))%nat with true.
  - rewrite str_drop_append. reflexivity.
  - symmetry. apply Nat.ltb_lt. rewrite length_append. simpl. lia.
Qed.

Lemma get_state_string_P :
  forall entries text,
    State.get_state_string entries = Ok text -> exists rest, text = String "P" rest.
Proof.
  intros entries text H. unfold State.get_state_string in H.
  destruct (mapM State.format_entry entries); simpl in H; [|discriminate].
  inversion H. eauto.
Qed.

(** Every rendered state starts with ["P"]. *)
Lemma get_state_P :
  forall (list_of_set : set_order) (state : pyval) (k : Z) (text : string),
    get_state list_of_set state k = Ok text -> exists rest, text = String "P" rest.
Proof.
  intros list_of_set state k text H. unfold get_state in H.
  destruct (State.validate_state state k) eqn:V; simpl in H; [|discriminate].
  destruct state as [| | |entries| |]; try discriminate.
  destruct ((k =? 0) || (k >=? len entries)) eqn:E.
  - eapply get_state_string_P, H.
  - apply orb_false_iff in E as [E1 E2]. apply Z.eqb_neq in E1.
    unfold State.validate_state in V.
    destruct (Z.leb_spec 0 k); [|discriminate].
    assert (Hk : 0 < k < len entries).
    { destruct (Z.geb_spec k (len entries)); [discriminate | lia]. }
    rewrite (get_numerator_windows entries k Hk) in H. unfold windows in H.
    replace (List.length entries - Z.to_nat k + 1)%nat
      with (S (List.length entries - Z.to_nat k)) in H by lia.
    simpl in H.
    destruct (State.get_denominator _ _) as [dens|]; simpl in H; [|discriminate].
    destruct (State.get_state_string _) as [first|] eqn:G; simpl in H; [|discriminate].
    apply get_state_string_P in G as [rest ->].
    destruct (mapM State.get_state_string _) as [others|]; simpl in H; [|discriminate].
    destruct (len dens >? 0).
    + destruct (mapM State.get_state_string dens); simpl in H; [|discriminate].
      destruct others; inversion H; simpl; eauto.
    + destruct others; inversion H; simpl; eauto.
Qed.

Lemma format_state_multiplicity_weighted :
  forall (list_of_set : set_order) (order : Z) (state : pyval) (m : Z),
    Equation.format_state_multiplicity list_of_set order (weighted (state, m))
    = (text <- get_state list_of_set state order ;; Ok (weighted_text m text)).
Proof.
  intros. unfold Equation.format_state_multiplicity, weighted, weighted_text,
    multiplicity_prefix. simpl. destruct (1 <? m); reflexivity.
Qed.

Lemma mapM_format_state_multiplicity :
  forall (list_of_set : set_order) (order : Z) (ws : list (pyval * Z)) (texts : list string),
    Forall2 (fun w text => get_state list_of_set (fst w) order = Ok text) ws texts ->
    mapM (Equation.format_state_multiplicity list_of_set order) (map weighted ws)
    = Ok (weighted_texts ws texts).
Proof.
  intros list_of_set order ws texts H.
  induction H as [|[state m] text ws texts Hw _ IH].
  - reflexivity.
  - change (map weighted ((state, m) :: ws)) with (weighted (state, m) :: map weighted ws).
    cbn [mapM]. rewrite format_state_multiplicity_weighted, IH.
    simpl in Hw. rewrite Hw. reflexivity.
Qed.

Lemma len_cons_not_0 : forall (A : Type) (x : A) (l : list A), (len (x :: l) =? 0) = false.
Proof. intros. apply Z.eqb_neq. unfold len. simpl. lia. Qed.

Lemma len_two_not_1 :
  forall (A : Type) (x y : A) (l : list A), (len (x :: y :: l) =? 1) = false.
Proof. intros. apply Z.eqb_neq. unfold len. simpl. lia. Qed.

Lemma format_create_decay_single_one :
  forall (key : pyval) (rate : string) (decay : bool) (m : Z) (text : string),
    get_rate key = Ok rate ->
    1 < m ->
    (exists rest, text = String "P" rest) ->
    Equation.format_create_decay_single key [weighted_text m text] decay
    = Ok (single_clause (if decay then "-" else "+") m rate text).
Proof.
  intros key rate decay m text Hrate Hm [rest ->].
  unfold Equation.format_create_decay_single. rewrite Hrate. simpl.
  unfold weighted_text, multiplicity_prefix.
  replace (1 <? m) with true by (symmetry; apply Z.ltb_lt; exact Hm).
  rewrite get_prefactor_numeral;
    [reflexivity | apply str_of_int_numeral; lia | reflexivity].
Qed.

Lemma format_create_decay_single_many :
  forall (key : pyval) (rate : string) (decay : bool) (a b : string) (l : list string),
    get_rate key = Ok rate ->
    Equation.format_create_decay_single key (a :: b :: l) decay
    = Ok (multi_clause (if decay then "-" else "+") rate (a :: b :: l)).
Proof.
  intros key rate decay a b l Hrate.
  unfold Equation.format_create_decay_single. rewrite Hrate.
  cbn [bind]. rewrite len_two_not_1. reflexivity.
Qed.

(** What a rate with states on one side only adds to the equation. *)
Lemma add_key_one_sided :
  forall (list_of_set : set_order) (order : Z) (key creation decay : pyval)
         (decay_only : bool) (ws : list (pyval * Z)) (texts : list string)
         (equation_string : string),
    getitem creation key = Ok (PList (if decay_only then [] else map weighted ws)) ->
    getitem decay key = Ok (PList (if decay_only then map weighted ws else [])) ->
    Forall2 (fun w text => get_state list_of_set (fst w) order = Ok text) ws texts ->
    ws <> [] ->
    Equation.add_key list_of_set order creation decay equation_string key
    = (clause <- Equation.format_create_decay_single key (weighted_texts ws texts)
                   decay_only ;;
       Ok (equation_string ++ clause)).
Proof.
  intros list_of_set order key creation decay decay_only ws texts equation_string
    Hc Hd Hws Hne.
  pose proof (mapM_format_state_multiplicity list_of_set order ws texts Hws) as Hm.
  assert (Hterms : exists t ts, weighted_texts ws texts = t :: ts).
  { destruct Hws as [|w text ws texts]; [contradiction|].
    unfold weighted_texts. simpl. eauto. }
  destruct Hterms as [t [ts Hterms]]. rewrite Hterms in *.
  unfold Equation.add_key. rewrite Hc, Hd.
  destruct decay_only; cbn [bind iterate mapM]; rewrite Hm; cbn [bind].
  - rewrite len_positive_nonempty. reflexivity.
  - rewrite len_positive_nonempty, len_cons_not_0. reflexivity.
Qed.

(** C8: when a rate has states on one side only, a single weighted state of
    multiplicity [m > 1] gives the clause sign, numeral [m], rate, state, with
    no parentheses; two or more weighted states give the sign, the rate and,
    between parentheses, the states joined by ["+"], each behind the numeral
    of its own multiplicity. *)
Theorem single_and_multi_term_clauses :
  forall (list_of_set : set_order) (order : Z) (key creation decay : pyval)
         (rate : string) (decay_only : bool) (ws : list (pyval * Z))
         (texts : list string) (equation_string : string),
    get_rate key = Ok rate ->
    getitem creation key = Ok (PList (if decay_only then [] else map weighted ws)) ->
    getitem decay key = Ok (PList (if decay_only then map weighted ws else [])) ->
    Forall2 (fun w text => get_state list_of_set (fst w) order = Ok text) ws texts ->
    let sign := if decay_only then "-" else "+" in
    (forall state m text,
        ws = [(state, m)] -> texts = [text] -> 1 < m ->
        Equation.add_key list_of_set order creation decay equation_string key
        = Ok (equation_string ++ single_clause sign m rate text))
    /\ ((2 <= List.length ws)%nat ->
        Equation.add_key list_of_set order creation decay equation_string key
        = Ok (equation_string ++ multi_clause sign rate (weighted_texts ws texts))).
Proof.
  intros list_of_set order key creation decay rate decay_only ws texts equation_string
    Hrate Hc Hd Hws sign.
  split.
  - intros state m text -> -> Hm.
    rewrite (add_key_one_sided list_of_set order key creation decay decay_only
               [(state, m)] [text] equation_string Hc Hd Hws) by discriminate.
    inversion Hws as [|? ? ? ? Hstate _]; subst. simpl in Hstate.
    change (weighted_texts [(state, m)] [text]) with [weighted_text m text].
    rewrite (format_create_decay_single_one key rate decay_only m text Hrate Hm
               (get_state_P _ _ _ _ Hstate)).
    reflexivity.
  - intros Hlen.
    rewrite (add_key_one_sided list_of_set order key creation decay decay_only
               ws texts equation_string Hc Hd Hws)
      by (intros ->; simpl in Hlen; lia).
    destruct Hws as [|w1 t1 ws texts _ Hws]; [simpl in Hlen; lia|].
    destruct Hws as [|w2 t2 ws texts _ Hws]; [simpl in Hlen; lia|].
    unfold weighted_texts. cbn [combine map].
    rewrite (format_create_decay_single_many key rate decay_only _ _ _ Hrate).
    reflexivity.
Qed.

Lemma single_and_multi_term_clauses_witness :
  Equation.add_key state_order 0
    (PDict [(PStr "k1", PList [])])
    (PDict [(PStr "k1", PList [weighted (state_ab, 3)])])
    EmptyString (PStr "k1")
  = Ok "-3 K1 Pa0b1[t]"
  /\ Equation.add_key state_order 0
       (PDict [(PStr "k1", PList [weighted (state_ab, 3); weighted (state_ab, 1)])])
       (PDict [(PStr "k1", PList [])])
       EmptyString (PStr "k1")
     = Ok "+K1 (3Pa0b1[t]+Pa0b1[t])".
Proof.
  split.
  - refine (proj1 (single_and_multi_term_clauses state_order 0 (PStr "k1")
                     (PDict [(PStr "k1", PList [])])
                     (PDict [(PStr "k1", PList [weighted (state_ab, 3)])])
                     "K1" true [(state_ab, 3)] ["Pa0b1[t]"] EmptyString _ _ _ _)
             state_ab 3 "Pa0b1[t]" _ _ _);
      try reflexivity; try lia.
    apply Forall2_cons; [reflexivity | apply Forall2_nil].
  - refine (proj2 (single_and_multi_term_clauses state_order 0 (PStr "k1")
                     (PDict [(PStr "k1", PList [weighted (state_ab, 3); weighted (state_ab, 1)])])
                     (PDict [(PStr "k1", PList [])])
                     "K1" false [(state_ab, 3); (state_ab, 1)] ["Pa0b1[t]"; "Pa0b1[t]"]
                     EmptyString _ _ _ _) _);
      try reflexivity; try (simpl; lia).
    apply Forall2_cons; [reflexivity|].
    apply Forall2_cons; [reflexivity | apply Forall2_nil].
Defined.

(** ** Records with nothing to add *)

Lemma equation_validate_substates_two_tuples :
  forall entries,
    Equation.validate_substates entries = Ok tt -> forallb two_tuple entries = true.
Proof.
  induction entries as [|e l IH]; simpl; intros H.
  - reflexivity.
  - destruct e as [| | |items| |]; try discriminate.
    destruct items as [|a [|b [|c items]]]; try discriminate.
    + simpl. apply IH. exact H.
    + exfalso. replace (len (a :: b :: c :: items) =? 2) with false in H.
      * discriminate H.
      * symmetry. apply Z.eqb_neq. unfold len. simpl. lia.
Qed.

Lemma lookup_In :
  forall (k : pyval) (items : list (pyval * pyval)),
    In k (map fst items) -> exists x, lookup k items = Some x /\ In (k, x) items.
Proof.
  intros k. induction items as [|[k' x] items IH]; simpl; intros H.
  - contradiction.
  - destruct (py_eqb k k') eqn:E.
    + apply py_eqb_eq in E as <-. eauto.
    + destruct H as [H|H].
      * subst. rewrite py_eqb_refl in E. discriminate E.
      * destruct (IH H) as [y [Hy Hin]]. eauto.
Qed.

Lemma add_keys_nothing :
  forall (list_of_set : set_order) (order : Z) (creation decay : list (pyval * pyval))
         (keys : list pyval) (equation_string : string),
    (forall k x, In (k, x) creation -> x = PList []) ->
    (forall k x, In (k, x) decay -> x = PList []) ->
    (forall k, In k keys ->
               hashable k = true /\ In k (map fst creation) /\ In k (map fst decay)) ->
    Equation.add_keys list_of_set order (PDict creation) (PDict decay) equation_string keys
    = Ok equation_string.
Proof.
  intros list_of_set order creation decay keys equation_string Hc Hd.
  induction keys as [|k keys IH]; intros Hkeys.
  - reflexivity.
  - destruct (Hkeys k (or_introl eq_refl)) as [Hk [Hkc Hkd]].
    destruct (lookup_In k creation Hkc) as [x [Hx Hxin]].
    destruct (lookup_In k decay Hkd) as [y [Hy Hyin]].
    rewrite (Hc k x Hxin) in Hx. rewrite (Hd k y Hyin) in Hy.
    cbn [Equation.add_keys]. unfold Equation.add_key, getitem.
    rewrite Hk, Hx, Hy. simpl.
    apply IH. intros k' Hk'. apply Hkeys. right. exact Hk'.
Qed.

(** The failure at [equation_empty] is general: a record that passes
    validation and has an empty list under every key of both maps (or no key
    at all) makes [get_equation] raise [IndexError]. *)
Lemma all_lists_empty_raise_index_error :
  forall (list_of_set : set_order) (state : pyval)
         (creation decay : list (pyval * pyval)) (order : Z),
    Equation.validate_equation (PTuple [state; PDict creation; PDict decay]) = Ok tt ->
    forallb hashable (map fst creation) = true ->
    (forall k x, In (k, x) creation -> x = PList []) ->
    (forall k x, In (k, x) decay -> x = PList []) ->
    get_equation list_of_set (PTuple [state; PDict creation; PDict decay]) order
    = Raise IndexError.
Proof.
  intros list_of_set state creation decay order Hvalid Hhash Hc Hd.
  unfold get_equation. rewrite Hvalid.
  unfold Equation.validate_equation in Hvalid. simpl in Hvalid.
  destruct (Equation.validate_state state) as [[]|] eqn:Hstate; simpl in Hvalid;
    [|discriminate].
  destruct (Equation.same_keys (map fst creation) (map fst decay)) eqn:Hkeys;
    simpl in Hvalid; [|discriminate].
  destruct state as [| | |entries| |]; try discriminate. simpl in Hstate.
  simpl.
  pose proof (equation_validate_substates_two_tuples entries Hstate) as Htwo.
  rewrite (get_state_without_reduction list_of_set entries 0 Htwo (or_introl eq_refl)).
  rewrite (get_state_string_exact entries Htwo).
  simpl. rewrite add_keys_nothing; auto.
  intros k Hk. rewrite forallb_forall in Hhash. repeat split; auto.
  apply (proj1 (same_keys_iff _ _) Hkeys), Hk.
Qed.

(** Only the length of a weighted state is checked: three items raise
    [ValueError], while a multiplicity of 0 passes. *)
Example format_state_multiplicity_checks_length_only :
  Equation.format_state_multiplicity state_order 0 (PTuple [state_ab; PInt 2; PInt 0])
  = Raise ValueError
  /\ Equation.format_state_multiplicity state_order 0 (PTuple [state_ab; PInt 0])
     = Ok "Pa0b1[t]"
  /\ Equation.format_state_multiplicity state_order 0 (PTuple [state_ab; PInt 2])
     = Ok "2Pa0b1[t]".
Proof. repeat split; reflexivity. Qed.

Example other_renderers_examples :
  split_text "[t]" "Pa0[t]" = ["Pa0"; EmptyString]
  /\ split_text "aa" "aaa" = [EmptyString; "a"]
  /\ get_state_raw state_order state_ab = Ok "Pa0b1"
  /\ get_initial_condition state_order state_ab (PInt 0) (PInt 1) = Ok "Pa0b1[0] == 1"
  /\ get_constraint state_order (PTuple [PTuple [entry "a" 0]; PList [state_ab; state_ab]])
     = Ok "Pa0[t_] := Pa0b1[t] + Pa0b1[t]"
  /\ join_equations [(PStr "constraints", PList []); (PStr "equations", PList [PStr "x"]);
                     (PStr "initial conditions", PList []); (PStr "rate values", PList []);
                     (PStr "raw states", PList [])] = Ok PNone.
Proof. repeat split; reflexivity. Qed.

(** ** Rates, once rendered *)

Lemma upper_char_dot : forall c, Ascii.eqb (upper_char c) "." = Ascii.eqb c ".".
Proof. intros c. destruct c as [[] [] [] [] [] [] [] []]; reflexivity. Qed.

Lemma upper_char_idempotent : forall c, upper_char (upper_char c) = upper_char c.
Proof. intros c. destruct c as [[] [] [] [] [] [] [] []]; reflexivity. Qed.

Lemma upper_char_not_lower :
  forall c, ((97 <=? nat_of_ascii (upper_char c)) && (nat_of_ascii (upper_char c) <=? 122))%nat
            = false.
Proof. intros c. destruct c as [[] [] [] [] [] [] [] []]; reflexivity. Qed.

Lemma upper_idempotent : forall s, upper (upper s) = upper s.
Proof.
  induction s as [|c s IH]; simpl; [reflexivity|].
  rewrite upper_char_idempotent, IH. reflexivity.
Qed.

Lemma upper_no_lower : forall s, no_lower (upper s) = true.
Proof.
  induction s as [|c s IH]; cbn [upper no_lower]; [reflexivity|].
  rewrite upper_char_not_lower, IH. reflexivity.
Qed.

Lemma remove_char_absent : forall c s, str_contains c (remove_char c s) = false.
Proof.
  intros c. induction s as [|a s IH]; simpl; [reflexivity|].
  destruct (Ascii.eqb a c) eqn:E; simpl; [exact IH|].
  rewrite E, IH. reflexivity.
Qed.

Lemma remove_char_none : forall c s, str_contains c s = false -> remove_char c s = s.
Proof.
  intros c. induction s as [|a s IH]; simpl; intros H; [reflexivity|].
  apply orb_false_iff in H as [H1 H2]. rewrite H1, (IH H2). reflexivity.
Qed.

Lemma upper_contains_dot : forall s, str_contains "." (upper s) = str_contains "." s.
Proof.
  induction s as [|a s IH]; simpl; [reflexivity|].
  rewrite upper_char_dot, IH. reflexivity.
Qed.

(** X1: a rendered rate has no dot and no lower-case letter, and rendering
    it again changes nothing. *)
Theorem get_rate_canonical :
  forall text : string,
    exists rate,
      get_rate (PStr text) = Ok rate
      /\ str_contains "." rate = false
      /\ no_lower rate = true
      /\ get_rate (PStr rate) = Ok rate.
Proof.
  intros text. exists (upper (remove_char "." text)).
  assert (Hdot : str_contains "." (upper (remove_char "." text)) = false)
    by (rewrite upper_contains_dot; apply remove_char_absent).
  repeat split.
  - unfold get_rate. rewrite join_split_remove. reflexivity.
  - exact Hdot.
  - apply upper_no_lower.
  - unfold get_rate. rewrite join_split_remove, (remove_char_none _ _ Hdot).
    rewrite upper_idempotent. reflexivity.
Qed.

(** ** Errors of the state renderer *)

Lemma validate_substates_not_two_tuples :
  forall entries,
    forallb two_tuple entries = false -> State.validate_substates entries = Raise TypeError.
Proof.
  induction entries as [|e l IH]; simpl; intros H; [discriminate|].
  destruct e as [| | |items| |]; try reflexivity.
  destruct items as [|a [|b [|c items]]]; try reflexivity.
  - simpl in *. apply IH, H.
  - replace (len (a :: b :: c :: items) =? 2) with false; [reflexivity|].
    symmetry. apply Z.eqb_neq. unfold len. simpl. lia.
Qed.

(** X2: [get_state] checks the order first: a negative order raises
    [ValueError] whatever the state is; with an order of at least 0, a state
    that is not a tuple, or that has an entry which is not a tuple of two
    items, raises [TypeError], whatever the order is. *)
Theorem get_state_errors :
  forall (list_of_set : set_order) (state : pyval) (k : Z),
    (k < 0 -> get_state list_of_set state k = Raise ValueError)
    /\ (0 <= k -> accepted_state state = false ->
        get_state list_of_set state k = Raise TypeError).
Proof.
  intros list_of_set state k. unfold get_state, State.validate_state. split.
  - intros Hk.
    replace (0 <=? k) with false by (symmetry; apply Z.leb_gt; exact Hk).
    reflexivity.
  - intros Hk Hstate.
    replace (0 <=? k) with true by (symmetry; apply Z.leb_le; exact Hk).
    destruct state as [| | |entries| |]; try reflexivity.
    simpl in Hstate. simpl.
    rewrite (validate_substates_not_two_tuples entries Hstate). reflexivity.
Qed.

Lemma get_state_errors_witness :
  get_state state_order (PInt 7) (-1) = Raise ValueError
  /\ get_state state_order (PTuple [entry "a" 0; PTuple [PStr "b"]]) 1 = Raise TypeError.
Proof.
  split.
  - apply (proj1 (get_state_errors state_order (PInt 7) (-1))). lia.
  - apply (proj2 (get_state_errors state_order (PTuple [entry "a" 0; PTuple [PStr "b"]]) 1)).
    + lia.
    + reflexivity.
Defined.

(** ** The numeral in front of a rendered state *)

Lemma numeral_prefix :
  forall s,
    exists digits,
      numeral digits = true
      /\ (s = digits
          \/ exists c rest, s = digits ++ String c rest /\ isnumeric c = false).
Proof.
  induction s as [|c s IH].
  - exists EmptyString. auto.
  - destruct (isnumeric c) eqn:E.
    + destruct IH as [digits [Hd [->|[c' [rest [-> Hc']]]]]];
        exists (String c digits); simpl; rewrite E, Hd; split; auto.
      right. exists c', rest. auto.
    + exists EmptyString. split; [reflexivity|]. right. exists c, s. auto.
Qed.

Lemma get_prefactor_loop_all_numeral :
  forall (digits : string) (j : nat) (tmp : string),
    numeral digits = true ->
    Equation.get_prefactor_loop digits j tmp = ((j + String.length digits)%nat, tmp ++ digits).
Proof.
  induction digits as [|d digits IH]; intros j tmp Hd; simpl.
  - rewrite append_empty_r. f_equal. lia.
  - simpl in Hd. apply andb_true_iff in Hd as [Hd1 Hd2]. rewrite Hd1. simpl.
    rewrite (IH (S j) _ Hd2), append_assoc. simpl. f_equal. lia.
Qed.

Lemma numeral_append_not :
  forall digits c rest, isnumeric c = false -> numeral (digits ++ String c rest) = false.
Proof.
  induction digits as [|d digits IH]; intros c rest Hc; simpl.
  - rewrite Hc. reflexivity.
  - rewrite (IH c rest Hc). apply andb_false_r.
Qed.

(** X3: [get_prefactor] cuts a text after its leading numeric characters:
    the two parts give the text back and the second starts with a character
    that is not numeric.  A text of numeric characters only (the empty text
    too) comes back whole in both parts. *)
Theorem get_prefactor_splits :
  forall s : string,
    numeral (fst (Equation.get_prefactor s)) = true
    /\ if numeral s
       then Equation.get_prefactor s = (s, s)
       else fst (Equation.get_prefactor s) ++ snd (Equation.get_prefactor s) = s
            /\ exists c rest,
                 snd (Equation.get_prefactor s) = String c rest /\ isnumeric c = false.
Proof.
  intros s. destruct (numeral_prefix s) as [digits [Hd [->|[c [rest [-> Hc]]]]]].
  - rewrite Hd. unfold Equation.get_prefactor.
    rewrite (get_prefactor_loop_all_numeral digits 0 EmptyString Hd). simpl.
    rewrite Nat.ltb_irrefl. auto.
  - rewrite (numeral_append_not digits c rest Hc).
    rewrite (get_prefactor_numeral digits c rest Hd Hc). simpl.
    repeat split; eauto.
Qed.

(** ** Signs and spaces of the right-hand side *)

Lemma join_split_spaced :
  forall c s, join (String " " (String c " ")) (split c s) = spaced c s.
Proof.
  intros c. induction s as [|a s IH]; simpl.
  - reflexivity.
  - destruct (split_cons c s) as [w [ws E]]. rewrite E in *.
    destruct (Ascii.eqb a c).
    + simpl in *. rewrite IH. reflexivity.
    + rewrite <- IH. destruct ws; reflexivity.
Qed.

Lemma format_equation_string_cases :
  forall s : string,
    match strip s with
    | EmptyString => Equation.format_equation_string s = Raise IndexError
    | String _ _ => exists out, Equation.format_equation_string s = Ok out
    end.
Proof.
  intros s. unfold Equation.format_equation_string.
  destruct (strip s) as [|c0 body] eqn:E.
  - destruct s; reflexivity.
  - destruct s as [|c s]; [discriminate E|]. simpl. eauto.
Qed.

(** X4: [format_equation_string] raises [IndexError] on the texts that are
    empty once stripped, and on no other text. *)
Theorem format_equation_string_blank :
  forall s : string,
    match strip s with
    | EmptyString => Equation.format_equation_string s = Raise IndexError
    | String _ _ => exists out, Equation.format_equation_string s = Ok out
    end.
Proof. exact format_equation_string_cases. Qed.

Lemma spaced_head :
  forall c d s, Ascii.eqb c " " = false -> starts_with c (spaced d s) = true ->
                starts_with c s = true /\ Ascii.eqb c d = false.
Proof.
  intros c d [|a s] Hc H; cbn [spaced starts_with] in *; [discriminate|].
  destruct (Ascii.eqb a d) eqn:E; cbn [starts_with] in H.
  - rewrite Ascii.eqb_sym, Hc in H. discriminate H.
  - split; [exact H|]. apply Ascii.eqb_eq in H. subst. exact E.
Qed.

Lemma spaced_twice_head :
  forall c s,
    Ascii.eqb c " " = false ->
    starts_with c (spaced "-" (spaced "+" s)) = true ->
    Ascii.eqb c "-" = false /\ Ascii.eqb c "+" = false.
Proof.
  intros c s Hc H.
  destruct (spaced_head c "-" _ Hc H) as [H1 E1].
  destruct (spaced_head c "+" _ Hc H1) as [_ E2]. auto.
Qed.

(** The text that [format_equation_string] returns: the sign it kept, then
    the rest with each ["+"] and each ["-"] between spaces. *)
Lemma format_equation_string_shape :
  forall s out,
    Equation.format_equation_string s = Ok out ->
    exists body,
      out = (if starts_with "-" s then "-" else EmptyString)
            ++ spaced "-" (spaced "+" body).
Proof.
  intros s out H. unfold Equation.format_equation_string in H.
  destruct s as [|c s]; [discriminate H|]. simpl in H.
  destruct (strip (String c s)) as [|c0 t]; [discriminate H|]. simpl in H.
  rewrite !join_split_spaced in H. inversion H. eauto.
Qed.

Lemma format_equation_string_first_character :
  forall s out : string,
    Equation.format_equation_string s = Ok out ->
    starts_with "+" out = false
    /\ starts_with "-" out = starts_with "-" s.
Proof.
  intros s out H. destruct (format_equation_string_shape s out H) as [body ->].
  destruct (starts_with "-" s); simpl; [auto|].
  split.
  - destruct (starts_with "+" (spaced "-" (spaced "+" body))) eqn:E; [|reflexivity].
    destruct (spaced_twice_head "+" body eq_refl E) as [_ F]. discriminate F.
  - destruct (starts_with "-" (spaced "-" (spaced "+" body))) eqn:E; [|reflexivity].
    destruct (spaced_twice_head "-" body eq_refl E) as [F _]. discriminate F.
Qed.

(** X5: the text [format_equation_string] returns never starts with ["+"],
    and it starts with ["-"] exactly when the text it is given does. *)
Theorem format_equation_string_sign :
  forall s out : string,
    Equation.format_equation_string s = Ok out ->
    starts_with "+" out = false
    /\ starts_with "-" out = starts_with "-" s.
Proof. exact format_equation_string_first_character. Qed.

Lemma format_equation_string_sign_witness :
  starts_with "+" "a + b - c" = false
  /\ starts_with "-" "a + b - c" = starts_with "-" "+a+b-c".
Proof.
  apply (format_equation_string_sign "+a+b-c" "a + b - c"). reflexivity.
Defined.

Lemma between_spaces_weaken :
  forall c s, between_spaces c false s = true -> between_spaces c true s = true.
Proof.
  intros c [|a s] H; cbn [between_spaces] in *; [reflexivity|].
  destruct (Ascii.eqb a c); [discriminate H | exact H].
Qed.

Lemma between_spaces_spaced :
  forall c s before,
    Ascii.eqb " " c = false -> between_spaces c before (spaced c s) = true.
Proof.
  intros c s before Hc. revert before.
  induction s as [|a s IH]; intros before; cbn [spaced]; [reflexivity|].
  destruct (Ascii.eqb a c) eqn:E.
  - cbn [between_spaces starts_with].
    rewrite Hc, (Ascii.eqb_refl c), (Ascii.eqb_refl " "). apply IH.
  - cbn [between_spaces]. rewrite E. apply IH.
Qed.

Lemma starts_with_space_spaced :
  forall d s, Ascii.eqb " " d = false ->
              starts_with " " s = true -> starts_with " " (spaced d s) = true.
Proof.
  intros d [|a s] Hd H; cbn [spaced starts_with] in *; [discriminate|].
  apply Ascii.eqb_eq in H. subst. rewrite Hd. cbn [starts_with].
  apply Ascii.eqb_refl.
Qed.

Lemma between_spaces_kept :
  forall c d s before,
    Ascii.eqb d c = false -> Ascii.eqb " " c = false -> Ascii.eqb " " d = false ->
    between_spaces c before s = true ->
    between_spaces c before (spaced d s) = true.
Proof.
  intros c d s before Hdc Hc Hd. revert before.
  induction s as [|a s IH]; intros before H; cbn [spaced between_spaces] in *;
    [reflexivity|].
  destruct (Ascii.eqb a d) eqn:Ed.
  - apply Ascii.eqb_eq in Ed. subst a. rewrite Hdc in H.
    cbn [between_spaces]. rewrite Hc, Hdc, (Ascii.eqb_refl " ").
    apply between_spaces_weaken, IH.
    rewrite Ascii.eqb_sym, Hd in H. exact H.
  - cbn [between_spaces]. destruct (Ascii.eqb a c) eqn:Ec.
    + apply andb_true_iff in H as [H1 H3]. apply andb_true_iff in H1 as [H1 H2].
      rewrite H1, (starts_with_space_spaced d s Hd H2), (IH false H3). reflexivity.
    + apply IH, H.
Qed.

(** X6: in the text [format_equation_string] returns, every ["+"] stands
    between two spaces, and so does every ["-"] but the sign in front. *)
Theorem format_equation_string_spaces :
  forall s out : string,
    Equation.format_equation_string s = Ok out ->
    between_spaces "+" false out = true
    /\ exists sign rest,
         out = sign ++ rest
         /\ (sign = EmptyString \/ sign = "-")
         /\ between_spaces "-" false rest = true.
Proof.
  intros s out H. destruct (format_equation_string_shape s out H) as [body ->].
  assert (Hplus : forall before,
             between_spaces "+" before (spaced "-" (spaced "+" body)) = true).
  { intros before. apply between_spaces_kept; try reflexivity.
    apply between_spaces_spaced. reflexivity. }
  split.
  - destruct (starts_with "-" s); simpl; apply Hplus.
  - exists (if starts_with "-" s then "-" else EmptyString),
           (spaced "-" (spaced "+" body)).
    split; [reflexivity|]. split.
    + destruct (starts_with "-" s); auto.
    + apply between_spaces_spaced. reflexivity.
Qed.

Lemma format_equation_string_spaces_witness :
  between_spaces "+" false "-K1 (Pa0[t] + 2Pb1[t] - Pc2[t])" = true
  /\ exists sign rest,
       "-K1 (Pa0[t] + 2Pb1[t] - Pc2[t])" = sign ++ rest
       /\ (sign = EmptyString \/ sign = "-")
       /\ between_spaces "-" false rest = true.
Proof.
  apply (format_equation_string_spaces "-K1 (Pa0[t]+2Pb1[t]-Pc2[t])"
           "-K1 (Pa0[t] + 2Pb1[t] - Pc2[t])").
  reflexivity.
Defined.

(** ** What validation of a record accepts *)

Lemma equation_validate_substates_accepts :
  forall entries,
    forallb two_tuple entries = true -> Equation.validate_substates entries = Ok tt.
Proof.
  induction entries as [|e l IH]; simpl; intros H.
  - reflexivity.
  - apply andb_true_iff in H as [He Hl].
    destruct (two_tuple_inv e He) as [a [b ->]]. simpl. auto.
Qed.

Lemma validate_equation_shape :
  forall equation : pyval,
    Equation.validate_equation equation = Ok tt
    <-> exists entries creation decay,
          equation = PTuple [PTuple entries; PDict creation; PDict decay]
          /\ forallb two_tuple entries = true
          /\ (forall k, In k (map fst creation) <-> In k (map fst decay)).
Proof.
  intros equation. split.
  - intros H. destruct equation as [| | |items| |]; try discriminate.
    destruct items as [|state [|creation [|decay [|extra items]]]]; try discriminate.
    + simpl in H.
      destruct state as [| | |entries| |]; try discriminate. simpl in H.
      destruct (Equation.validate_substates entries) as [[]|] eqn:Hs; [|discriminate].
      simpl in H.
      destruct creation as [| | | | |creation]; try discriminate.
      destruct decay as [| | | | |decay]; try discriminate.
      destruct (Equation.same_keys (map fst creation) (map fst decay)) eqn:Hk;
        [|discriminate].
      exists entries, creation, decay. repeat split.
      * apply equation_validate_substates_two_tuples, Hs.
      * apply (proj1 (same_keys_iff _ _) Hk).
      * apply (proj1 (same_keys_iff _ _) Hk).
    + exfalso. unfold Equation.validate_equation in H.
      replace (len (state :: creation :: decay :: extra :: items) =? 3) with false in H.
      * discriminate H.
      * symmetry. apply Z.eqb_neq. unfold len. simpl. lia.
  - intros [entries [creation [decay [-> [Hs Hk]]]]].
    unfold Equation.validate_equation. simpl.
    rewrite (equation_validate_substates_accepts entries Hs). simpl.
    rewrite (proj2 (same_keys_iff _ _) Hk). reflexivity.
Qed.

(** X7: [validate_equation] accepts exactly the tuples of three items that
    hold a tuple of two-item tuples and two dictionaries with the same keys;
    what the dictionaries hold under their keys is not looked at. *)
Theorem validate_equation_accepts :
  forall equation : pyval,
    Equation.validate_equation equation = Ok tt
    <-> exists entries creation decay,
          equation = PTuple [PTuple entries; PDict creation; PDict decay]
          /\ forallb two_tuple entries = true
          /\ (forall k, In k (map fst creation) <-> In k (map fst decay)).
Proof. exact validate_equation_shape. Qed.

(** ** What a rate adds to the equation *)

Lemma weighted_texts_nil :
  forall ws texts,
    Forall2 (fun (w : pyval * Z) (text : string) => True) ws texts ->
    (weighted_texts ws texts = [] <-> ws = []).
Proof.
  intros ws texts H. destruct H; unfold weighted_texts; simpl; split;
    intros E; try reflexivity; discriminate E.
Qed.

(** The body of the loop over the keys, once the states of both lists are
    rendered. *)
Lemma add_key_rendered :
  forall (list_of_set : set_order) (order : Z) (key creation decay : pyval)
         (created decayed : list (pyval * Z)) (created_texts decayed_texts : list string)
         (equation_string : string),
    getitem creation key = Ok (PList (map weighted created)) ->
    getitem decay key = Ok (PList (map weighted decayed)) ->
    Forall2 (fun w text => get_state list_of_set (fst w) order = Ok text)
      created created_texts ->
    Forall2 (fun w text => get_state list_of_set (fst w) order = Ok text)
      decayed decayed_texts ->
    Equation.add_key list_of_set order creation decay equation_string key
    = match weighted_texts created created_texts, weighted_texts decayed decayed_texts with
      | [], [] => Ok equation_string
      | [], decay_states =>
          clause <- Equation.format_create_decay_single key decay_states true ;;
          Ok (equation_string ++ clause)
      | create_states, [] =>
          clause <- Equation.format_create_decay_single key create_states false ;;
          Ok (equation_string ++ clause)
      | create_states, decay_states =>
          clause <- Equation.format_create_decay key create_states decay_states ;;
          Ok (equation_string ++ clause)
      end.
Proof.
  intros list_of_set order key creation decay created decayed created_texts
    decayed_texts equation_string Hc Hd Hcs Hds.
  unfold Equation.add_key. rewrite Hc, Hd. cbn [bind iterate].
  rewrite (mapM_format_state_multiplicity list_of_set order _ _ Hcs).
  rewrite (mapM_format_state_multiplicity list_of_set order _ _ Hds).
  cbn [bind].
  destruct (weighted_texts created created_texts) as [|c cs];
    destruct (weighted_texts decayed decayed_texts) as [|d ds];
    rewrite ?len_positive_nonempty, ?len_cons_not_0; reflexivity.
Qed.

(** X8: when a rate has states on both sides, however few, its clause is
    ["+"], the rate, and between parentheses the creation terms joined by
    ["+"], then ["-"] and the decay terms joined by ["-"], each term behind
    the numeral of its multiplicity. *)
Theorem two_sided_clause :
  forall (list_of_set : set_order) (order : Z) (key creation decay : pyval)
         (rate : string) (created decayed : list (pyval * Z))
         (created_texts decayed_texts : list string) (equation_string : string),
    get_rate key = Ok rate ->
    getitem creation key = Ok (PList (map weighted created)) ->
    getitem decay key = Ok (PList (map weighted decayed)) ->
    Forall2 (fun w text => get_state list_of_set (fst w) order = Ok text)
      created created_texts ->
    Forall2 (fun w text => get_state list_of_set (fst w) order = Ok text)
      decayed decayed_texts ->
    created <> [] ->
    decayed <> [] ->
    Equation.add_key list_of_set order creation decay equation_string key
    = Ok (equation_string ++ "+" ++ rate ++ " ("
          ++ join "+" (weighted_texts created created_texts)
          ++ "-" ++ join "-" (weighted_texts decayed decayed_texts) ++ ")").
Proof.
  intros list_of_set order key creation decay rate created decayed created_texts
    decayed_texts equation_string Hrate Hc Hd Hcs Hds Hcne Hdne.
  rewrite (add_key_rendered _ _ _ _ _ _ _ _ _ _ Hc Hd Hcs Hds).
  destruct (weighted_texts created created_texts) as [|c cs] eqn:Ec.
  { exfalso. apply Hcne. eapply weighted_texts_nil; [|exact Ec].
    eapply Forall2_impl; [|exact Hcs]. auto. }
  destruct (weighted_texts decayed decayed_texts) as [|d ds] eqn:Ed.
  { exfalso. apply Hdne. eapply weighted_texts_nil; [|exact Ed].
    eapply Forall2_impl; [|exact Hds]. auto. }
  unfold Equation.format_create_decay. rewrite Hrate. reflexivity.
Qed.

Lemma two_sided_clause_witness :
  Equation.add_key state_order 0
    (PDict [(PStr "k.2", PList [weighted (state_ab, 1)])])
    (PDict [(PStr "k.2", PList [weighted (state_ab, 2); weighted (state_ab, 1)])])
    "+K1 Pa0[t]" (PStr "k.2")
  = Ok "+K1 Pa0[t]+K2 (Pa0b1[t]-2Pa0b1[t]-Pa0b1[t])".
Proof.
  refine (two_sided_clause state_order 0 (PStr "k.2")
            (PDict [(PStr "k.2", PList [weighted (state_ab, 1)])])
            (PDict [(PStr "k.2", PList [weighted (state_ab, 2); weighted (state_ab, 1)])])
            "K2" [(state_ab, 1)] [(state_ab, 2); (state_ab, 1)]
            ["Pa0b1[t]"] ["Pa0b1[t]"; "Pa0b1[t]"] "+K1 Pa0[t]" _ _ _ _ _ _ _);
    try reflexivity; try discriminate.
  - apply Forall2_cons; [reflexivity | apply Forall2_nil].
  - apply Forall2_cons; [reflexivity|].
    apply Forall2_cons; [reflexivity | apply Forall2_nil].
Defined.

(** X9: a rate whose key is not text is passed over when both of its lists
    are empty, and raises [TypeError] as soon as one of them holds a state,
    once the states are rendered. *)
Theorem key_that_is_not_text :
  forall (list_of_set : set_order) (order : Z) (key creation decay : pyval)
         (created decayed : list (pyval * Z)) (created_texts decayed_texts : list string)
         (equation_string : string),
    get_rate key = Raise TypeError ->
    getitem creation key = Ok (PList (map weighted created)) ->
    getitem decay key = Ok (PList (map weighted decayed)) ->
    Forall2 (fun w text => get_state list_of_set (fst w) order = Ok text)
      created created_texts ->
    Forall2 (fun w text => get_state list_of_set (fst w) order = Ok text)
      decayed decayed_texts ->
    Equation.add_key list_of_set order creation decay equation_string key
    = match created, decayed with
      | [], [] => Ok equation_string
      | _, _ => Raise TypeError
      end.
Proof.
  intros list_of_set order key creation decay created decayed created_texts
    decayed_texts equation_string Hrate Hc Hd Hcs Hds.
  rewrite (add_key_rendered _ _ _ _ _ _ _ _ _ _ Hc Hd Hcs Hds).
  unfold Equation.format_create_decay_single, Equation.format_create_decay.
  rewrite Hrate.
  destruct Hcs; destruct Hds; reflexivity.
Qed.

Lemma key_that_is_not_text_witness :
  Equation.add_key state_order 0
    (PDict [(PInt 1, PList [])]) (PDict [(PInt 1, PList [])]) EmptyString (PInt 1)
  = Ok EmptyString
  /\ Equation.add_key state_order 0
       (PDict [(PInt 1, PList [weighted (state_ab, 1)])]) (PDict [(PInt 1, PList [])])
       EmptyString (PInt 1)
     = Raise TypeError.
Proof.
  split.
  - refine (key_that_is_not_text state_order 0 (PInt 1)
              (PDict [(PInt 1, PList [])]) (PDict [(PInt 1, PList [])])
              [] [] [] [] EmptyString _ _ _ _ _);
      try reflexivity; apply Forall2_nil.
  - refine (key_that_is_not_text state_order 0 (PInt 1)
              (PDict [(PInt 1, PList [weighted (state_ab, 1)])])
              (PDict [(PInt 1, PList [])])
              [(state_ab, 1)] [] ["Pa0b1[t]"] [] EmptyString _ _ _ _ _);
      try reflexivity; try apply Forall2_nil.
    apply Forall2_cons; [reflexivity | apply Forall2_nil].
Defined.

(** ** Records that are assembled *)

Lemma get_state_returns :
  forall (list_of_set : set_order) (entries : list pyval) (k : Z),
    set_order_ok list_of_set ->
    0 <= k ->
    well_formed_state entries = true ->
    exists text, get_state list_of_set (PTuple entries) k = Ok text.
Proof.
  intros list_of_set entries k Hok Hk Hwf.
  destruct (Z.eq_dec k 0) as [->|Hk0].
  - rewrite get_state_without_reduction; [|eapply forallb_impl;
      [apply site_entry_two_tuple | exact Hwf] | left; reflexivity].
    rewrite get_state_string_exact; eauto.
    eapply forallb_impl; [apply site_entry_two_tuple | exact Hwf].
  - destruct (Z_lt_le_dec k (len entries)) as [Hlt|Hge].
    + rewrite get_state_mean_field; eauto. lia.
    + rewrite get_state_without_reduction; [|eapply forallb_impl;
        [apply site_entry_two_tuple | exact Hwf] | right; exact Hge].
      rewrite get_state_string_exact; eauto.
      eapply forallb_impl; [apply site_entry_two_tuple | exact Hwf].
Qed.

Lemma weighted_list_rendered :
  forall (list_of_set : set_order) (order : Z) (v : pyval),
    set_order_ok list_of_set ->
    0 <= order ->
    weighted_list v ->
    exists ws texts,
      v = PList (map weighted ws)
      /\ Forall2 (fun w text => get_state list_of_set (fst w) order = Ok text) ws texts.
Proof.
  intros list_of_set order v Hok Horder [ws [-> Hws]].
  exists ws. induction Hws as [|w ws [entries [Hw Hwf]] _ [texts [_ IH]]].
  - exists []. split; [reflexivity | constructor].
  - destruct (get_state_returns list_of_set entries order Hok Horder Hwf) as [text Ht].
    exists (text :: texts). split; [reflexivity|].
    constructor; [rewrite Hw; exact Ht | exact IH].
Qed.

Lemma format_create_decay_single_returns :
  forall (key : pyval) (rate : string) (state : string) (states : list string)
         (decay : bool),
    get_rate key = Ok rate ->
    exists rest,
      Equation.format_create_decay_single key (state :: states) decay
      = Ok (String (if decay then "-" else "+")%char rest).
Proof.
  intros key rate state states decay Hrate.
  unfold Equation.format_create_decay_single. rewrite Hrate. cbn [bind].
  destruct states as [|state' states].
  - simpl. destruct (Equation.get_prefactor state). destruct decay; simpl; eauto.
  - rewrite len_two_not_1. destruct decay; simpl; eauto.
Qed.

(** What one rate adds, for a record of the accepted shape: nothing when
    both of its lists are empty, and otherwise a clause that starts with its
    sign. *)
Lemma add_key_returns :
  forall (list_of_set : set_order) (order : Z) (creation decay : list (pyval * pyval))
         (key : pyval) (equation_string : string),
    set_order_ok list_of_set ->
    0 <= order ->
    Forall (fun kv => weighted_list (snd kv)) creation ->
    Forall (fun kv => weighted_list (snd kv)) decay ->
    (exists text, key = PStr text) ->
    In key (map fst creation) ->
    In key (map fst decay) ->
    exists clause,
      Equation.add_key list_of_set order (PDict creation) (PDict decay) equation_string key
      = Ok (equation_string ++ clause)
      /\ (clause = EmptyString
            /\ lookup key creation = Some (PList [])
            /\ lookup key decay = Some (PList [])
          \/ exists rest, clause = String "+" rest \/ clause = String "-" rest).
Proof.
  intros list_of_set order creation decay key equation_string Hok Horder Hc Hd
    [text ->] Hkc Hkd.
  destruct (lookup_In _ _ Hkc) as [x [Hx Hxin]].
  destruct (lookup_In _ _ Hkd) as [y [Hy Hyin]].
  rewrite Forall_forall in Hc, Hd.
  destruct (weighted_list_rendered list_of_set order x Hok Horder (Hc _ Hxin))
    as [created [created_texts [-> Hcs]]].
  destruct (weighted_list_rendered list_of_set order y Hok Horder (Hd _ Hyin))
    as [decayed [decayed_texts [-> Hds]]].
  assert (Hgc : getitem (PDict creation) (PStr text) = Ok (PList (map weighted created)))
    by (simpl; rewrite Hx; reflexivity).
  assert (Hgd : getitem (PDict decay) (PStr text) = Ok (PList (map weighted decayed)))
    by (simpl; rewrite Hy; reflexivity).
  rewrite (add_key_rendered _ _ _ _ _ _ _ _ _ _ Hgc Hgd Hcs Hds).
  assert (Hrate : get_rate (PStr text) = Ok (upper (join EmptyString (split "." text))))
    by reflexivity.
  destruct Hcs as [|c tc created created_texts _ _];
    destruct Hds as [|d td decayed decayed_texts _ _].
  - exists EmptyString. rewrite append_empty_r. auto.
  - unfold weighted_texts. cbn [combine map fst snd].
    destruct (format_create_decay_single_returns (PStr text) _
                (weighted_text (snd d) td)
                (map (fun wt => weighted_text (snd (fst wt)) (snd wt))
                   (combine decayed decayed_texts)) true Hrate) as [rest ->].
    exists (String "-" rest). split; [reflexivity|]. right. eauto.
  - unfold weighted_texts. cbn [combine map fst snd].
    destruct (format_create_decay_single_returns (PStr text) _
                (weighted_text (snd c) tc)
                (map (fun wt => weighted_text (snd (fst wt)) (snd wt))
                   (combine created created_texts)) false Hrate) as [rest ->].
    exists (String "+" rest). split; [reflexivity|]. right. eauto.
  - unfold weighted_texts. cbn [combine map fst snd].
    unfold Equation.format_create_decay. rewrite Hrate. cbn [bind].
    eexists. split; [reflexivity|]. right. simpl. eauto.
Qed.

Lemma add_keys_returns :
  forall (list_of_set : set_order) (order : Z) (creation decay : list (pyval * pyval)),
    set_order_ok list_of_set ->
    0 <= order ->
    Forall (fun kv => weighted_list (snd kv)) creation ->
    Forall (fun kv => weighted_list (snd kv)) decay ->
    forall (keys : list pyval) (equation_string : string),
      (forall k, In k keys ->
                 (exists text, k = PStr text)
                 /\ In k (map fst creation) /\ In k (map fst decay)) ->
      exists out,
        Equation.add_keys list_of_set order (PDict creation) (PDict decay)
          equation_string keys
        = Ok (equation_string ++ out)
        /\ (out = EmptyString
              /\ (forall k, In k keys ->
                            lookup k creation = Some (PList [])
                            /\ lookup k decay = Some (PList []))
            \/ exists rest, out = String "+" rest \/ out = String "-" rest).
Proof.
  intros list_of_set order creation decay Hok Horder Hc Hd.
  induction keys as [|key keys IH]; intros equation_string Hkeys.
  - exists EmptyString. simpl. rewrite append_empty_r. split; [reflexivity|].
    left. split; [reflexivity|]. intros k [].
  - destruct (Hkeys key (or_introl eq_refl)) as [Htext [Hkc Hkd]].
    destruct (add_key_returns list_of_set order creation decay key equation_string
                Hok Horder Hc Hd Htext Hkc Hkd) as [clause [Hadd Hclause]].
    destruct (IH (equation_string ++ clause)
                (fun k Hk => Hkeys k (or_intror Hk))) as [out [Hrest Hout]].
    exists (clause ++ out). cbn [Equation.add_keys]. rewrite Hadd. cbn [bind].
    rewrite Hrest, append_assoc. split; [reflexivity|].
    destruct Hclause as [[-> [Hlc Hld]]|[rest [->| ->]]].
    + simpl. destruct Hout as [[-> Hall]|Hsign]; [|right; exact Hsign].
      left. split; [reflexivity|]. intros k [<-|Hk]; auto.
    + right. simpl. eauto.
    + right. simpl. eauto.
Qed.

Lemma strip_starts_with_text :
  forall c s, isspace c = false -> exists c' rest, strip (String c s) = String c' rest.
Proof.
  intros c s Hc. unfold strip. simpl. rewrite Hc. simpl.
  destruct (rstrip s); [rewrite Hc|]; eauto.
Qed.

(** X10: a record of the accepted shape is assembled whenever its keys are
    text, its lists hold weighted states with well-formed states, the order
    is at least 0 and some rate has a state to add: [get_equation] returns
    ["D["], the exact rendering of the target state, [", t] == "] and a
    right-hand side. *)
Theorem get_equation_returns :
  forall (list_of_set : set_order) (entries : list pyval)
         (creation decay : list (pyval * pyval)) (order : Z),
    set_order_ok list_of_set ->
    0 <= order ->
    forallb two_tuple entries = true ->
    (forall k, In k (map fst creation) <-> In k (map fst decay)) ->
    Forall (fun kv => exists text, fst kv = PStr text) creation ->
    Forall (fun kv => weighted_list (snd kv)) creation ->
    Forall (fun kv => weighted_list (snd kv)) decay ->
    (exists k, In k (map fst creation)
               /\ (lookup k creation <> Some (PList [])
                   \/ lookup k decay <> Some (PList []))) ->
    exists rhs,
      get_equation list_of_set (PTuple [PTuple entries; PDict creation; PDict decay]) order
      = Ok ("D[" ++ exact_text entries ++ ", t] == " ++ rhs).
Proof.
  intros list_of_set entries creation decay order Hok Horder Hentries Hkeys Htext
    Hc Hd [k [Hk Hsome]].
  unfold get_equation.
  rewrite (proj2 (validate_equation_shape _)) by eauto 6.
  cbn [bind getitem seq_item iterate]. simpl.
  rewrite (get_state_without_reduction list_of_set entries 0 Hentries (or_introl eq_refl)).
  rewrite (get_state_string_exact entries Hentries). cbn [bind].
  destruct (add_keys_returns list_of_set order creation decay Hok Horder Hc Hd
              (map fst creation) EmptyString) as [out [Hadd Hout]].
  { intros key Hkey. split; [|split; [exact Hkey | apply Hkeys, Hkey]].
    apply in_map_iff in Hkey as [kv [<- Hkv]].
    rewrite Forall_forall in Htext. apply Htext, Hkv. }
  rewrite Hadd. cbn [bind]. simpl append at 1.
  destruct Hout as [[_ Hall]|[rest Hsign]].
  - exfalso. destruct (Hall k Hk) as [H1 H2]. destruct Hsome; contradiction.
  - assert (Hstrip : exists c' body, strip out = String c' body)
      by (destruct Hsign as [-> | ->]; apply strip_starts_with_text; reflexivity).
    destruct Hstrip as [c' [body Hstrip]].
    pose proof (format_equation_string_cases out) as Hformat.
    rewrite Hstrip in Hformat. destruct Hformat as [rhs ->].
    exists rhs. cbn [bind]. f_equal. simpl. rewrite !append_assoc. reflexivity.
Qed.

Lemma get_equation_returns_witness :
  exists rhs,
    get_equation state_order
      (PTuple [PTuple [entry "a" 0; entry "b" 1];
               PDict [(PStr "k1", PList (map weighted [(state_ab, 2)]))];
               PDict [(PStr "k1", PList (map weighted []))]]) 1
    = Ok ("D[" ++ exact_text [entry "a" 0; entry "b" 1] ++ ", t] == " ++ rhs).
Proof.
  apply (get_equation_returns state_order [entry "a" 0; entry "b" 1]
           [(PStr "k1", PList (map weighted [(state_ab, 2)]))]
           [(PStr "k1", PList (map weighted []))] 1).
  - apply state_order_ok.
  - lia.
  - reflexivity.
  - intros k. simpl. tauto.
  - repeat constructor. exists "k1". reflexivity.
  - repeat constructor. exists [(state_ab, 2)]. split; [reflexivity|].
    repeat constructor. exists [entry "a" 0; entry "b" 1]. split; reflexivity.
  - repeat constructor. exists []. split; [reflexivity | constructor].
  - exists (PStr "k1"). split; [left; reflexivity|]. left. discriminate.
Defined.

(** X11: whatever the order and whatever the maps hold, an equation that
    [get_equation] returns has the exact rendering of the target state on
    its left-hand side, never a mean-field one, and its right-hand side does
    not start with ["+"]. *)
Theorem get_equation_sides :
  forall (list_of_set : set_order) (equation : pyval) (order : Z) (text : string),
    get_equation list_of_set equation order = Ok text ->
    exists entries creation decay rhs,
      equation = PTuple [PTuple entries; PDict creation; PDict decay]
      /\ text = "D[" ++ exact_text entries ++ ", t] == " ++ rhs
      /\ starts_with "+" rhs = false.
Proof.
  intros list_of_set equation order text H. unfold get_equation in H.
  destruct (Equation.validate_equation equation) as [[]|] eqn:Hvalid; [|discriminate H].
  apply validate_equation_shape in Hvalid
    as [entries [creation [decay [-> [Hentries Hkeys]]]]].
  cbn [bind getitem seq_item iterate] in H. simpl in H.
  rewrite (get_state_without_reduction list_of_set entries 0 Hentries (or_introl eq_refl))
    in H.
  rewrite (get_state_string_exact entries Hentries) in H. cbn [bind] in H.
  destruct (Equation.add_keys _ _ _ _ _ _) as [equation_string|];
    cbn [bind] in H; [|discriminate H].
  destruct (Equation.format_equation_string equation_string) as [rhs|] eqn:Hrhs;
    cbn [bind] in H; [|discriminate H].
  exists entries, creation, decay, rhs. injection H as <-. repeat split.
  - unfold exact_text. simpl. rewrite !append_assoc. reflexivity.
  - apply (format_equation_string_first_character equation_string rhs Hrhs).
Qed.

Lemma get_equation_sides_witness :
  exists entries creation decay rhs,
    equation_create = PTuple [PTuple entries; PDict creation; PDict decay]
    /\ "D[Pa0b1[t], t] == 2 K1 Pa0b1[t]" = "D[" ++ exact_text entries ++ ", t] == " ++ rhs
    /\ starts_with "+" rhs = false.
Proof.
  exact (get_equation_sides state_order equation_create 3
           "D[Pa0b1[t], t] == 2 K1 Pa0b1[t]" eq_refl).
Defined.

(** ** Raw states, initial conditions and constraints *)

Lemma plain_append : forall a b, plain (a ++ b) = plain a && plain b.
Proof.
  induction a as [|c a IH]; intros b; simpl; [reflexivity|].
  rewrite IH, andb_assoc. reflexivity.
Qed.

Lemma prefix_bracket :
  forall c s rest, Ascii.eqb c "[" = false -> String.prefix (String "[" rest) (String c s) = false.
Proof.
  intros c s rest H. cbn [String.prefix].
  destruct (ascii_dec "[" c) as [E|E]; [|reflexivity].
  subst. discriminate H.
Qed.

Lemma split_text_plain :
  forall body, plain body = true -> split_text "[t]" (body ++ "[t]") = [body; EmptyString].
Proof.
  unfold split_text. induction body as [|c body IH]; intros H.
  - reflexivity.
  - simpl in H. apply andb_true_iff in H as [H1 H3]. apply andb_true_iff in H1 as [H1 H2].
    apply negb_true_iff in H1.
    change ((String c body) ++ "[t]") with (String c (body ++ "[t]")).
    cbn [split_text_from]. rewrite (prefix_bracket c _ _ H1), (IH H3). reflexivity.
Qed.

Lemma rstrip_plain : forall s, plain s = true -> rstrip s = s.
Proof.
  induction s as [|c s IH]; intros H; simpl in *; [reflexivity|].
  apply andb_true_iff in H as [H1 H3]. apply andb_true_iff in H1 as [H1 H2].
  apply negb_true_iff in H2. rewrite (IH H3), H2. destruct s; reflexivity.
Qed.

Lemma strip_plain : forall s, plain s = true -> strip s = s.
Proof.
  intros s H. unfold strip. destruct s as [|c s]; [reflexivity|].
  pose proof H as H'. simpl in H'.
  apply andb_true_iff in H' as [H1 _]. apply andb_true_iff in H1 as [_ H2].
  apply negb_true_iff in H2. simpl lstrip. rewrite H2. apply rstrip_plain, H.
Qed.

Lemma exact_text_pieces :
  forall entries,
    plain (entries_text entries) = true ->
    split_text "[t]" (exact_text entries) = ["P" ++ entries_text entries; EmptyString].
Proof.
  intros entries H. unfold exact_text. fold (entries_text entries).
  rewrite <- append_assoc. apply split_text_plain.
  rewrite plain_append, H. reflexivity.
Qed.

Lemma get_state_order_0 :
  forall (list_of_set : set_order) (entries : list pyval),
    forallb two_tuple entries = true ->
    get_state list_of_set (PTuple entries) 0 = Ok (exact_text entries).
Proof.
  intros list_of_set entries H.
  rewrite (get_state_without_reduction list_of_set entries 0 H (or_introl eq_refl)).
  apply get_state_string_exact, H.
Qed.

(** X12: for a state whose labels and indices have no ["["] and no white
    space, the raw rendering is ["P"] and the entries: the exact rendering
    without its ["[t]"]. *)
Theorem get_state_raw_plain :
  forall (list_of_set : set_order) (entries : list pyval),
    forallb two_tuple entries = true ->
    plain (entries_text entries) = true ->
    get_state_raw list_of_set (PTuple entries) = Ok ("P" ++ entries_text entries)
    /\ get_state list_of_set (PTuple entries) 0
       = Ok (("P" ++ entries_text entries) ++ "[t]").
Proof.
  intros list_of_set entries Htwo Hplain. unfold get_state_raw.
  rewrite (get_state_order_0 list_of_set entries Htwo). cbn [bind].
  rewrite (exact_text_pieces entries Hplain). split.
  - f_equal. simpl join. rewrite append_empty_r. apply strip_plain.
    rewrite plain_append, Hplain. reflexivity.
  - unfold exact_text. fold (entries_text entries). rewrite append_assoc. reflexivity.
Qed.

Lemma get_state_raw_plain_witness :
  get_state_raw state_order (PTuple entries_abcd) = Ok ("P" ++ entries_text entries_abcd)
  /\ get_state state_order (PTuple entries_abcd) 0
     = Ok (("P" ++ entries_text entries_abcd) ++ "[t]").
Proof.
  apply (get_state_raw_plain state_order entries_abcd); reflexivity.
Defined.

(** X13: for such a state, the initial condition is the raw rendering, then
    the time between brackets, [" == "] and the value, both as [str] writes
    them. *)
Theorem get_initial_condition_plain :
  forall (list_of_set : set_order) (entries : list pyval) (time value : pyval),
    forallb two_tuple entries = true ->
    plain (entries_text entries) = true ->
    get_initial_condition list_of_set (PTuple entries) time value
    = Ok ("P" ++ entries_text entries ++ "[" ++ py_str time ++ "] == " ++ py_str value).
Proof.
  intros list_of_set entries time value Htwo Hplain. unfold get_initial_condition.
  rewrite (get_state_order_0 list_of_set entries Htwo). cbn [bind].
  rewrite (exact_text_pieces entries Hplain).
  change (slice ["P" ++ entries_text entries; EmptyString] 0 (-1))
    with ["P" ++ entries_text entries].
  cbn [join]. rewrite append_assoc. reflexivity.
Qed.

Lemma get_initial_condition_plain_witness :
  get_initial_condition state_order (PTuple entries_abcd) (PInt 0) (PStr "p0")
  = Ok ("P" ++ entries_text entries_abcd ++ "[" ++ py_str (PInt 0) ++ "] == "
        ++ py_str (PStr "p0")).
Proof.
  apply (get_initial_condition_plain state_order entries_abcd (PInt 0) (PStr "p0"));
    reflexivity.
Defined.

Lemma mapM_get_state_order_0 :
  forall (list_of_set : set_order) (states : list (list pyval)),
    forallb (forallb two_tuple) states = true ->
    mapM (fun state => get_state list_of_set state 0) (map PTuple states)
    = Ok (map exact_text states).
Proof.
  intros list_of_set. induction states as [|s l IH]; simpl; intros H.
  - reflexivity.
  - apply andb_true_iff in H as [Hs Hl].
    rewrite (get_state_order_0 list_of_set s Hs), (IH Hl). reflexivity.
Qed.

(** X14: a constraint defines the raw rendering of its first state, with
    the parameter ["[t_]"], as the exact renderings of its other states
    joined by [" + "]; with no other state the right-hand side is empty. *)
Theorem get_constraint_plain :
  forall (list_of_set : set_order) (entries : list pyval) (others : list (list pyval)),
    forallb two_tuple entries = true ->
    plain (entries_text entries) = true ->
    forallb (forallb two_tuple) others = true ->
    get_constraint list_of_set (PTuple [PTuple entries; PList (map PTuple others)])
    = Ok ("P" ++ entries_text entries ++ "[t_] := " ++ join " + " (map exact_text others)).
Proof.
  intros list_of_set entries others Htwo Hplain Hothers. unfold get_constraint.
  cbn [getitem seq_item]. simpl bind at 1.
  rewrite (get_state_order_0 list_of_set entries Htwo). cbn [bind].
  rewrite (exact_text_pieces entries Hplain). simpl.
  rewrite (mapM_get_state_order_0 list_of_set others Hothers). cbn [bind].
  rewrite append_empty_r, !append_assoc. reflexivity.
Qed.

Lemma get_constraint_plain_witness :
  get_constraint state_order
    (PTuple [PTuple [entry "a" 0];
             PList (map PTuple [[entry "a" 0; entry "b" 1]; [entry "a" 0; entry "c" 1]])])
  = Ok "Pa0[t_] := Pa0b1[t] + Pa0c1[t]".
Proof.
  apply (get_constraint_plain state_order [entry "a" 0]
           [[entry "a" 0; entry "b" 1]; [entry "a" 0; entry "c" 1]]); reflexivity.
Defined.

(** ** The unfinished joiner *)

(** X15: [join_equations] raises [ValueError] unless the keys of the
    dictionary are exactly ["constraints"], ["equations"],
    ["initial conditions"], ["rate values"] and ["raw states"]; a dictionary
    with the key ["raw_states"] instead of ["raw states"] is turned down. *)
Theorem join_equations_keys :
  forall quantities : list (pyval * pyval),
    ~ (forall k, In k (map fst quantities)
                 <-> In k [PStr "constraints"; PStr "equations"; PStr "initial conditions";
                           PStr "rate values"; PStr "raw states"]) ->
    join_equations quantities = Raise ValueError.
Proof.
  intros quantities H. unfold join_equations, Join.validate_dictionary.
  destruct (Equation.same_keys _ _) eqn:E; [|reflexivity].
  exfalso. apply H, same_keys_iff, E.
Qed.

Lemma join_equations_keys_witness :
  join_equations [(PStr "constraints", PList []); (PStr "equations", PList []);
                  (PStr "initial conditions", PList []); (PStr "rate values", PList []);
                  (PStr "raw_states", PList [])]
  = Raise ValueError.
Proof.
  apply join_equations_keys. intros H.
  destruct (proj2 (H (PStr "raw states"))) as [E|[E|[E|[E|[E|[]]]]]];
    try discriminate E.
  simpl. tauto.
Defined.

Lemma join_text_texts :
  forall sep texts, join_text sep (PList (map PStr texts)) = Ok (join sep texts).
Proof.
  intros sep texts. unfold join_text. cbn [iterate bind].
  assert (E : mapM (fun item => match item with
                                | PStr s => Ok s
                                | _ => Raise TypeError
                                end) (map PStr texts) = Ok texts).
  { induction texts as [|t l IH]; simpl; [reflexivity|]. rewrite IH. reflexivity. }
  rewrite E. reflexivity.
Qed.

Lemma str_last_cons : forall s c, exists x, str_last (String c s) = Ok x.
Proof.
  induction s as [|d s IH]; intros c.
  - exists c. reflexivity.
  - destruct (IH d) as [x Hx]. exists x. exact Hx.
Qed.

(** X16: on a dictionary with exactly the five keys, whose equations and
    initial conditions are lists of text, [join_equations] returns [None]:
    the text it joins is not returned. *)
Theorem join_equations_returns_none :
  forall (quantities : list (pyval * pyval)) (equations conditions : list string),
    (forall k, In k (map fst quantities)
               <-> In k [PStr "constraints"; PStr "equations"; PStr "initial conditions";
                         PStr "rate values"; PStr "raw states"]) ->
    lookup (PStr "equations") quantities = Some (PList (map PStr equations)) ->
    lookup (PStr "initial conditions") quantities = Some (PList (map PStr conditions)) ->
    join_equations quantities = Ok PNone.
Proof.
  intros quantities equations conditions Hkeys He Hc.
  unfold join_equations, Join.validate_dictionary.
  rewrite (proj2 (same_keys_iff _ _) Hkeys). cbn [negb bind].
  unfold Join.format_equations. cbn [getitem hashable]. rewrite He, Hc. cbn [bind].
  rewrite !join_text_texts. cbn [bind].
  destruct (join Join.separator equations) as [|c s]; unfold char; cbn [append].
  - destruct (str_last_cons (join Join.separator conditions) tab) as [x ->].
    reflexivity.
  - destruct (str_last_cons (s ++ String tab (join Join.separator conditions)) c)
      as [x ->].
    reflexivity.
Qed.

Lemma join_equations_returns_none_witness :
  join_equations [(PStr "equations", PList (map PStr ["D[Pa0[t], t] == K1 Pa0[t]"]));
                  (PStr "constraints", PList []);
                  (PStr "initial conditions", PList (map PStr ["Pa0[0] == 1"]));
                  (PStr "rate values", PList []);
                  (PStr "raw states", PList [])]
  = Ok PNone.
Proof.
  apply (join_equations_returns_none _ ["D[Pa0[t], t] == K1 Pa0[t]"] ["Pa0[0] == 1"]).
  - intros k. simpl. tauto.
  - reflexivity.
  - reflexivity.
Defined.

(** ** States with no entry twice *)

Lemma NoDup_firstn_nodup : forall (A : Type) n (l : list A), NoDup l -> NoDup (firstn n l).
Proof.
  intros A. induction n as [|n IH]; intros [|x l] H; simpl; try constructor.
  - inversion H; subst. intros Hx. apply In_firstn in Hx. contradiction.
  - inversion H; subst. apply IH. assumption.
Qed.

Lemma NoDup_skipn_nodup : forall (A : Type) n (l : list A), NoDup l -> NoDup (skipn n l).
Proof.
  intros A. induction n as [|n IH]; intros [|x l] H; simpl; auto.
  inversion H; subst. apply IH. assumption.
Qed.

Lemma distinct_NoDup : forall l, NoDup l -> distinct l = l.
Proof.
  induction l as [|x l IH]; intros H; simpl; [reflexivity|].
  inversion H as [|? ? Hx Hl]; subst. rewrite (IH Hl). f_equal.
  rewrite <- (filter_ext_in (fun _ => true)).
  - clear. induction l; simpl; congruence.
  - intros y Hy. destruct (py_eqb x y) eqn:E; [|reflexivity].
    apply py_eqb_eq in E. subst. contradiction.
Qed.

Lemma intersection_nil_r : forall a, intersection a [] = [].
Proof. induction a; simpl; auto. Qed.

Lemma mem_cons_other :
  forall x y l, x <> y -> mem y (x :: l) = mem y l.
Proof.
  intros x y l H. unfold mem. simpl.
  destruct (py_eqb y x) eqn:E; [|reflexivity].
  apply py_eqb_eq in E. subst. contradiction.
Qed.

Lemma mem_absent : forall x l, ~ In x l -> mem x l = false.
Proof.
  intros x l H. destruct (mem x l) eqn:E; [|reflexivity].
  apply mem_In in E. contradiction.
Qed.

(** What two stretches of a list with no entry twice have in common. *)
Lemma stretch_intersection :
  forall (l : list pyval),
    NoDup l ->
    forall i j a b : nat,
      (i <= j)%nat ->
      intersection (firstn a (skipn i l)) (firstn b (skipn j l))
      = firstn (Nat.min (i + a - j) b) (skipn j l).
Proof.
  induction l as [|x l IH]; intros Hl i j a b Hij.
  - rewrite !skipn_nil, !firstn_nil. reflexivity.
  - inversion Hl as [|? ? Hx Hl']; subst.
    destruct i as [|i]; destruct j as [|j]; try lia.
    + destruct a as [|a]; [reflexivity|]. destruct b as [|b].
      * rewrite Nat.min_0_r. apply intersection_nil_r.
      * simpl skipn. cbn [firstn]. unfold intersection. cbn [filter].
        unfold mem at 1. cbn [existsb]. rewrite py_eqb_refl. cbn [orb].
        change (Nat.min (0 + S a - 0) (S b)) with (S (Nat.min a b)).
        cbn [firstn]. f_equal.
        specialize (IH Hl' 0%nat 0%nat a b (Nat.le_refl 0)). simpl skipn in IH.
        replace (0 + a - 0)%nat with a in IH by lia.
        rewrite <- IH. unfold intersection. apply filter_ext_in.
        intros y Hy. apply mem_cons_other. intros ->. apply Hx.
        eapply In_firstn, Hy.
    + destruct a as [|a]; [reflexivity|].
      simpl skipn. cbn [firstn]. unfold intersection. cbn [filter].
      rewrite mem_absent.
      * specialize (IH Hl' 0%nat j a b (Nat.le_0_l j)). simpl skipn in IH.
        unfold intersection in IH. rewrite IH. f_equal; lia.
      * intros Hin. apply Hx. eapply In_skipn, In_firstn, Hin.
    + simpl skipn. rewrite (IH Hl' i j a b) by lia. f_equal; lia.
Qed.

Lemma scan_pairs_map :
  forall (A B : Type) (f : A -> B) (l : list A),
    scan_pairs (map f l) = map (fun p => (f (fst p), f (snd p))) (scan_pairs l).
Proof.
  intros A B f. induction l as [|x l IH]; simpl; [reflexivity|].
  rewrite map_app, !map_map, IH. reflexivity.
Qed.

Lemma scan_pairs_seq_lt :
  forall m s a b, In (a, b) (scan_pairs (seq s m)) -> (s <= a < b)%nat.
Proof.
  induction m as [|m IH]; intros s a b H; simpl in H; [contradiction|].
  apply in_app_or in H as [H|H].
  - apply in_map_iff in H as [y [E Hy]]. inversion E; subst.
    apply in_seq in Hy. lia.
  - apply IH in H. lia.
Qed.

(** The denominator factors of a state with no entry twice: the overlaps of
    the windows. *)
Lemma denominator_factors_overlaps :
  forall (list_of_set : set_order) (entries : list pyval) (k : nat),
    NoDup entries ->
    denominator_factors list_of_set (windows entries k)
    = filter nonempty
        (map (fun ij => list_of_set (overlap entries k ij))
           (scan_pairs (seq 0 (List.length entries - k + 1)))).
Proof.
  intros list_of_set entries k Hnd. unfold denominator_factors, windows.
  rewrite scan_pairs_map, map_map. f_equal. apply map_ext_in.
  intros [i j] Hij. apply scan_pairs_seq_lt in Hij.
  unfold common, overlap, window. cbn [fst snd]. f_equal.
  rewrite !distinct_NoDup by (apply NoDup_firstn_nodup, NoDup_skipn_nodup, Hnd).
  rewrite (stretch_intersection entries Hnd i j k k) by lia.
  f_equal. lia.
Qed.

Lemma get_denominator_of_distinct :
  forall (list_of_set : set_order) (entries : list pyval) (k : Z),
    well_formed_state entries = true ->
    NoDup entries ->
    0 < k < len entries ->
    State.get_denominator list_of_set (State.get_numerator entries k)
    = Ok (filter nonempty
            (map (fun ij => list_of_set (overlap entries (Z.to_nat k) ij))
               (scan_pairs (seq 0 (List.length entries - Z.to_nat k + 1))))).
Proof.
  intros list_of_set entries k Hwf Hnd Hk.
  rewrite (get_numerator_windows entries k Hk).
  rewrite get_denominator_factors.
  - rewrite (denominator_factors_overlaps list_of_set entries (Z.to_nat k) Hnd).
    reflexivity.
  - apply windows_forallb.
    eapply forallb_impl; [apply site_entry_hashable | exact Hwf].
Qed.

(** X17: for a well-formed state with no entry twice and [0 < k < n], the
    denominator has one factor for each pair of windows [i < j] that overlap,
    in scan order, and the factor holds the entries [j] to [i + k - 1] of the
    state: windows that are not neighbours give a factor too, as long as
    they overlap. *)
Theorem get_denominator_overlaps :
  forall (list_of_set : set_order) (entries : list pyval) (k : Z),
    well_formed_state entries = true ->
    NoDup entries ->
    0 < k < len entries ->
    State.get_denominator list_of_set (State.get_numerator entries k)
    = Ok (filter nonempty
            (map (fun ij => list_of_set (overlap entries (Z.to_nat k) ij))
               (scan_pairs (seq 0 (List.length entries - Z.to_nat k + 1))))).
Proof. exact get_denominator_of_distinct. Qed.

Lemma NoDup_entries_abcd : NoDup entries_abcd.
Proof.
  repeat constructor; simpl; intros H;
    repeat (destruct H as [H|H]; [discriminate H|]); exact H.
Qed.

Lemma get_denominator_overlaps_witness :
  State.get_denominator state_order (State.get_numerator entries_abcd 3)
  = Ok (filter nonempty
          (map (fun ij => state_order (overlap entries_abcd (Z.to_nat 3) ij))
             (scan_pairs (seq 0 (List.length entries_abcd - Z.to_nat 3 + 1))))).
Proof.
  apply (get_denominator_overlaps state_order entries_abcd 3).
  - reflexivity.
  - apply NoDup_entries_abcd.
  - unfold len. simpl. lia.
Defined.

Example three_windows_three_factors :
  get_state state_order
    (PTuple [entry "a" 0; entry "b" 1; entry "c" 2; entry "d" 3; entry "e" 4]) 3
  = Ok "Pa0b1c2[t] Pb1c2d3[t] Pc2d3e4[t]/(Pb1c2[t] Pc2[t] Pc2d3[t])".
Proof. reflexivity. Qed.

Lemma windows_of_one :
  forall l : list pyval,
    map (window l 1) (seq 0 (List.length l)) = map (fun e => [e]) l.
Proof.
  induction l as [|x l IH]; [reflexivity|].
  cbn [List.length seq map]. f_equal.
  rewrite <- seq_shift, map_map. exact IH.
Qed.

Lemma filter_nonempty_none :
  forall (A B : Type) (f : A -> list B) (l : list A),
    (forall x, In x l -> f x = []) -> filter nonempty (map f l) = [].
Proof.
  intros A B f. induction l as [|x l IH]; intros H; simpl; [reflexivity|].
  rewrite (H x (or_introl eq_refl)). simpl. apply IH. intros y Hy. apply H. right. exact Hy.
Qed.

(** X18: order 1 of a well-formed state with no entry twice is the product
    of its one-entry states, with no denominator. *)
Theorem get_state_first_order :
  forall (list_of_set : set_order) (entries : list pyval),
    set_order_ok list_of_set ->
    well_formed_state entries = true ->
    NoDup entries ->
    1 < len entries ->
    get_state list_of_set (PTuple entries) 1
    = Ok (join " " (map (fun e => exact_text [e]) entries)).
Proof.
  intros list_of_set entries Hok Hwf Hnd Hlen.
  rewrite (get_state_mean_field list_of_set entries 1 Hok Hwf) by lia.
  change (Z.to_nat 1) with 1%nat.
  rewrite (denominator_factors_overlaps list_of_set entries 1 Hnd).
  rewrite filter_nonempty_none.
  - unfold mean_field_text, windows. cbn [nonempty]. rewrite append_empty_r.
    replace (List.length entries - 1 + 1)%nat with (List.length entries)
      by (unfold len in Hlen; lia).
    rewrite windows_of_one, map_map. reflexivity.
  - intros [i j] Hij. apply scan_pairs_seq_lt in Hij.
    unfold overlap, window. cbn [fst snd].
    replace (i + 1 - j)%nat with 0%nat by lia. cbn [firstn].
    apply Permutation_nil, Permutation_sym, Hok.
Qed.

Lemma get_state_first_order_witness :
  get_state (@rev pyval) (PTuple entries_abcd) 1
  = Ok (join " " (map (fun e => exact_text [e]) entries_abcd)).
Proof.
  apply (get_state_first_order (@rev pyval) entries_abcd).
  - apply reverse_order_ok.
  - reflexivity.
  - apply NoDup_entries_abcd.
  - unfold len. simpl. lia.
Defined.

(** ** Entries that cannot be hashed *)

Lemma get_denominator_inner_unhashable :
  forall (list_of_set : set_order) (i : nat) (a : list pyval)
         (l : list (list pyval)) (s : nat) (acc : list (list pyval)),
    (i < s)%nat ->
    l <> [] ->
    forallb hashable a = false \/ forallb (forallb hashable) l = false ->
    State.get_denominator_inner list_of_set (Z.of_nat i) a
      (combine (map Z.of_nat (seq s (List.length l))) l) acc
    = Raise TypeError.
Proof.
  intros list_of_set i a. induction l as [|b l IH]; intros s acc Hs Hne Hbad.
  - contradiction.
  - simpl. destruct (Z.leb_spec (Z.of_nat s) (Z.of_nat i)); [lia|].
    unfold set_of. destruct (forallb hashable a) eqn:Ea; [|reflexivity].
    destruct (forallb hashable b) eqn:Eb; [|reflexivity].
    destruct Hbad as [Hbad|Hbad]; [discriminate Hbad|].
    simpl in Hbad. rewrite Eb in Hbad. simpl in Hbad. cbn [bind].
    assert (Hl : l <> []) by (intros ->; discriminate Hbad).
    destruct (len _ >? 0); apply IH; auto; lia.
Qed.

Lemma window_covers :
  forall (entries : list pyval) (k : nat) (x : pyval),
    (0 < k <= List.length entries)%nat ->
    In x entries ->
    exists w, In w (windows entries k) /\ In x w.
Proof.
  intros entries k x Hk Hx. apply In_nth_error in Hx as [p Hp].
  assert (Hp' : (p < List.length entries)%nat)
    by (apply nth_error_Some; rewrite Hp; discriminate).
  exists (window entries k (Nat.min p (List.length entries - k))). split.
  - unfold windows. apply in_map, in_seq. lia.
  - apply (nth_error_In _ (p - Nat.min p (List.length entries - k))).
    unfold window. rewrite nth_error_firstn, nth_error_skipn.
    replace (p - Nat.min p (List.length entries - k) <? k)%nat with true
      by (symmetry; apply Nat.ltb_lt; lia).
    rewrite <- Hp. f_equal. lia.
Qed.

Lemma get_denominator_unhashable :
  forall (list_of_set : set_order) (w0 w1 : list pyval) (ws : list (list pyval)),
    forallb (forallb hashable) (w0 :: w1 :: ws) = false ->
    State.get_denominator list_of_set (w0 :: w1 :: ws) = Raise TypeError.
Proof.
  intros list_of_set w0 w1 ws Hbad. unfold State.get_denominator.
  change (enumerate (w0 :: w1 :: ws))
    with ((Z.of_nat 0, w0)
          :: combine (map Z.of_nat (seq 1 (List.length (w1 :: ws)))) (w1 :: ws)).
  cbn [State.get_denominator_outer].
  change (enumerate (w0 :: w1 :: ws))
    with ((Z.of_nat 0, w0)
          :: combine (map Z.of_nat (seq 1 (List.length (w1 :: ws)))) (w1 :: ws)).
  cbn [State.get_denominator_inner].
  change (Z.of_nat 0 <=? Z.of_nat 0) with true. cbn iota.
  rewrite (get_denominator_inner_unhashable list_of_set 0 w0 (w1 :: ws) 1 []).
  - reflexivity.
  - lia.
  - discriminate.
  - cbn [forallb] in Hbad.
    destruct (forallb hashable w0); [right; exact Hbad | left; reflexivity].
Qed.

(** X19: between order 0 and its length, a state of two-item entries one of
    which cannot be hashed (it holds a list or a dictionary) raises
    [TypeError], while order 0 renders it. *)
Theorem get_state_unhashable :
  forall (list_of_set : set_order) (entries : list pyval) (k : Z),
    forallb two_tuple entries = true ->
    forallb hashable entries = false ->
    0 < k < len entries ->
    get_state list_of_set (PTuple entries) k = Raise TypeError
    /\ get_state list_of_set (PTuple entries) 0 = Ok (exact_text entries).
Proof.
  intros list_of_set entries k Htwo Hbad Hk. split.
  2:{ apply get_state_order_0, Htwo. }
  unfold get_state, State.validate_state.
  replace (0 <=? k) with true by (symmetry; apply Z.leb_le; lia).
  simpl. rewrite (validate_substates_two_tuples entries Htwo). simpl.
  replace ((k =? 0) || (k >=? len entries)) with false.
  2:{ symmetry. apply orb_false_iff. split.
      - apply Z.eqb_neq. lia.
      - destruct (Z.geb_spec k (len entries)); [lia | reflexivity]. }
  rewrite (get_numerator_windows entries k Hk).
  assert (Hw : forallb (forallb hashable) (windows entries (Z.to_nat k)) = false).
  { destruct (forallb (forallb hashable) (windows entries (Z.to_nat k))) eqn:E;
      [|reflexivity].
    rewrite <- Hbad. symmetry. apply forallb_forall. intros x Hx.
    destruct (window_covers entries (Z.to_nat k) x) as [w [Hw Hxw]];
      [unfold len in Hk; lia | exact Hx |].
    rewrite forallb_forall in E. specialize (E w Hw).
    rewrite forallb_forall in E. apply E, Hxw. }
  unfold windows in *.
  replace (List.length entries - Z.to_nat k + 1)%nat
    with (S (S (List.length entries - Z.to_nat k - 1))) in * by (unfold len in Hk; lia).
  cbn [seq map] in *.
  rewrite (get_denominator_unhashable list_of_set _ _ _ Hw). reflexivity.
Qed.

Lemma get_state_unhashable_witness :
  get_state state_order
    (PTuple [PTuple [PStr "a"; PList [PInt 0]]; entry "b" 1; entry "c" 2]) 2
  = Raise TypeError
  /\ get_state state_order
       (PTuple [PTuple [PStr "a"; PList [PInt 0]]; entry "b" 1; entry "c" 2]) 0
     = Ok (exact_text [PTuple [PStr "a"; PList [PInt 0]]; entry "b" 1; entry "c" 2]).
Proof.
  apply (get_state_unhashable state_order
           [PTuple [PStr "a"; PList [PInt 0]]; entry "b" 1; entry "c" 2] 2).
  - reflexivity.
  - reflexivity.
  - unfold len. simpl. lia.
Defined.

(** ** The order of the decay map *)

Lemma lookup_permutation :
  forall (items items' : list (pyval * pyval)),
    Permutation items items' ->
    NoDup (map fst items) ->
    forall k, lookup k items = lookup k items'.
Proof.
  intros items items' H. induction H as [|[k' x] l l' H IH|[k1 x1] [k2 x2] l|l l' l'' H1 IH1 H2 IH2];
    intros Hnd k.
  - reflexivity.
  - simpl. destruct (py_eqb k k'); [reflexivity|].
    apply IH. inversion Hnd. assumption.
  - simpl. destruct (py_eqb k k1) eqn:E1; destruct (py_eqb k k2) eqn:E2; try reflexivity.
    apply py_eqb_eq in E1, E2. subst. inversion Hnd as [|? ? Hin _]. subst.
    exfalso. apply Hin. left. reflexivity.
  - rewrite (IH1 Hnd k). apply IH2.
    eapply Permutation_NoDup; [apply Permutation_map, H1 | exact Hnd].
Qed.

Lemma same_keys_permutation :
  forall (keys : list pyval) (items items' : list (pyval * pyval)),
    Permutation items items' ->
    Equation.same_keys keys (map fst items) = Equation.same_keys keys (map fst items').
Proof.
  intros keys items items' H.
  assert (Hin : forall k, In k (map fst items) <-> In k (map fst items')).
  { intros k. split; apply Permutation_in; [|symmetry]; apply Permutation_map, H. }
  apply eq_true_iff_eq. rewrite !same_keys_iff.
  split; intros E k; rewrite (E k); [|symmetry]; apply Hin.
Qed.

Lemma add_keys_permutation :
  forall (list_of_set : set_order) (order : Z) (creation : pyval)
         (decay decay' : list (pyval * pyval)),
    Permutation decay decay' ->
    NoDup (map fst decay) ->
    forall (keys : list pyval) (equation_string : string),
      Equation.add_keys list_of_set order creation (PDict decay) equation_string keys
      = Equation.add_keys list_of_set order creation (PDict decay') equation_string keys.
Proof.
  intros list_of_set order creation decay decay' Hperm Hnd.
  induction keys as [|key keys IH]; intros equation_string; [reflexivity|].
  cbn [Equation.add_keys].
  assert (E : Equation.add_key list_of_set order creation (PDict decay) equation_string key
              = Equation.add_key list_of_set order creation (PDict decay') equation_string key).
  { unfold Equation.add_key. cbn [getitem].
    rewrite (lookup_permutation decay decay' Hperm Hnd key). reflexivity. }
  rewrite E.
  destruct (Equation.add_key list_of_set order creation (PDict decay') equation_string key);
    cbn [bind]; [apply IH | reflexivity].
Qed.

(** X20: the order of the items of the decay map is never consulted: with
    distinct keys, listing them in another order gives the same result, be it
    an equation or an error. *)
Theorem decay_map_order_irrelevant :
  forall (list_of_set : set_order) (state creation : pyval)
         (decay decay' : list (pyval * pyval)) (order : Z),
    NoDup (map fst decay) ->
    Permutation decay decay' ->
    get_equation list_of_set (PTuple [state; creation; PDict decay]) order
    = get_equation list_of_set (PTuple [state; creation; PDict decay']) order.
Proof.
  intros list_of_set state creation decay decay' order Hnd Hperm.
  unfold get_equation, Equation.validate_equation.
  change (len [state; creation; PDict decay]) with 3.
  change (len [state; creation; PDict decay']) with 3.
  change (getitem (PTuple [state; creation; PDict decay]) (PInt 0)) with (Ok state).
  change (getitem (PTuple [state; creation; PDict decay']) (PInt 0)) with (Ok state).
  change (getitem (PTuple [state; creation; PDict decay]) (PInt 1)) with (Ok creation).
  change (getitem (PTuple [state; creation; PDict decay']) (PInt 1)) with (Ok creation).
  change (getitem (PTuple [state; creation; PDict decay]) (PInt 2)) with (Ok (PDict decay)).
  change (getitem (PTuple [state; creation; PDict decay']) (PInt 2)) with (Ok (PDict decay')).
  cbn [Z.eqb Pos.eqb negb bind].
  destruct (Equation.validate_state state); cbn [bind]; [|reflexivity].
  destruct creation as [| | | | |creation]; try reflexivity.
  rewrite (same_keys_permutation (map fst creation) decay decay' Hperm).
  destruct (Equation.same_keys _ _); cbn [negb bind]; [|reflexivity].
  cbn [iterate bind].
  destruct (get_state list_of_set state 0); cbn [bind]; [|reflexivity].
  rewrite (add_keys_permutation list_of_set order (PDict creation) decay decay' Hperm Hnd).
  reflexivity.
Qed.

Lemma decay_map_order_irrelevant_witness :
  get_equation state_order
    (PTuple [state_ab;
             PDict [(PStr "k1", PList [weighted (state_ab, 1)]); (PStr "k2", PList [])];
             PDict [(PStr "k1", PList []); (PStr "k2", PList [weighted (state_ab, 2)])]]) 0
  = get_equation state_order
      (PTuple [state_ab;
               PDict [(PStr "k1", PList [weighted (state_ab, 1)]); (PStr "k2", PList [])];
               PDict [(PStr "k2", PList [weighted (state_ab, 2)]); (PStr "k1", PList [])]]) 0.
Proof.
  apply decay_map_order_irrelevant.
  - repeat constructor; simpl; intros H;
      repeat (destruct H as [H|H]; [discriminate H|]); exact H.
  - apply perm_swap.
Defined.

(** ** The sizes of the sub-states *)

Lemma window_length :
  forall (entries : list pyval) (k i : nat),
    (i + k <= List.length entries)%nat -> List.length (window entries k i) = k.
Proof.
  intros entries k i H. unfold window. rewrite length_firstn, length_skipn. lia.
Qed.

(** X21: for a well-formed state with no entry twice and [0 < k < n], every
    numerator sub-state has exactly [k] entries and every denominator factor
    has at least one entry and fewer than [k]: the expansion is written with
    states of at most [k] entries. *)
Theorem mean_field_sizes :
  forall (list_of_set : set_order) (entries : list pyval) (k : Z),
    set_order_ok list_of_set ->
    well_formed_state entries = true ->
    NoDup entries ->
    0 < k < len entries ->
    Forall (fun w => len w = k) (State.get_numerator entries k)
    /\ exists denominator,
         State.get_denominator list_of_set (State.get_numerator entries k) = Ok denominator
         /\ Forall (fun d => 0 < len d < k) denominator.
Proof.
  intros list_of_set entries k Hok Hwf Hnd Hk. split.
  - rewrite (get_numerator_windows entries k Hk). unfold windows.
    apply Forall_forall. intros w Hw. apply in_map_iff in Hw as [i [<- Hi]].
    apply in_seq in Hi. unfold len in *. rewrite window_length; lia.
  - eexists. split; [apply get_denominator_of_distinct; assumption|].
    apply Forall_forall. intros d Hd. apply filter_In in Hd as [Hd Hne].
    apply in_map_iff in Hd as [[i j] [<- Hij]]. apply scan_pairs_seq_lt in Hij.
    pose proof (Permutation_length (Hok (overlap entries (Z.to_nat k) (i, j)))) as Hlen.
    unfold len in *. rewrite Hlen. split.
    + destruct (list_of_set _) eqn:E; [discriminate Hne|].
      rewrite <- Hlen. simpl. lia.
    + unfold overlap, window. cbn [fst snd]. rewrite length_firstn. lia.
Qed.

Lemma mean_field_sizes_witness :
  Forall (fun w => len w = 3) (State.get_numerator entries_abcd 3)
  /\ exists denominator,
       State.get_denominator (@rev pyval) (State.get_numerator entries_abcd 3)
       = Ok denominator
       /\ Forall (fun d => 0 < len d < 3) denominator.
Proof.
  apply (mean_field_sizes (@rev pyval) entries_abcd 3).
  - apply reverse_order_ok.
  - reflexivity.
  - apply NoDup_entries_abcd.
  - unfold len. simpl. lia.
Defined.
